(** * Database maintenance utilities of the meeting analyzer (backend/db_utils.py)

    A shallow embedding of [check_database], [backup_database],
    [clean_orphaned_files] and [main], over an explicit model of what the
    script touches: the file system, standard input and output, the clock
    and the SQLite file behind [sqlite3.connect].

    Scope of the model.  Paths are POSIX paths; symbolic and hard links
    are left out, and of the permission bits only the write permission of
    directories is kept (it decides whether entries can be created or
    removed in them).  Strings are byte strings.  SQLite REAL values are
    dyadic numbers.  [argparse] is that of Python 3.11.

    What the model leaves out, and the theorems therefore do not speak
    of:
    - SQLite's own writes.  Reading a database is taken to leave the
      file system alone; SQLite rolling back a journal left by a crash,
      or checkpointing a write-ahead log when the connection is closed,
      is not modelled, and [conn.close()] is left out.
    - Failures of [print], and signals: [input] returns a line or raises
      [EOFError]; [KeyboardInterrupt], which [except Exception] does not
      catch, is not modelled.
    - Failures of a copy once the target is open, other than by the
      limit on the size of files: a full disk, or [copystat] failing.
    - Standard error, on which [argparse] writes why it refuses a
      command line.
    - Files of 2^1024 bytes and more, whose size has no [float]. *)

From Stdlib Require Import ZArith Ascii String List DecimalString DecimalNat.
From stdpp Require Import base gmap strings list fin_maps.

(* ===================================================================== *)
(** ** Strings: the few [str] methods the script relies on *)
(* ===================================================================== *)

Module Str.

(** [str(n)] for a non-negative integer. *)
Definition of_nat (n : nat) : string :=
  NilEmpty.string_of_uint (Nat.to_uint n).

(** The same for a binary number. *)
Definition of_N (n : N) : string :=
  NilEmpty.string_of_uint (N.to_uint n).

Definition lower_ascii (c : ascii) : ascii :=
  let n := nat_of_ascii c in
  if Nat.leb 65 n && Nat.leb n 90 then ascii_of_nat (n + 32) else c.

(** [s.lower()].  Only A-Z are mapped; bytes of non-ASCII characters are
    kept, which agrees with Python on the one question the script asks
    ([ == 'y']), as 'Y' is the only character whose lower case is 'y'. *)
Fixpoint lower (s : string) : string :=
  match s with
  | EmptyString => EmptyString
  | String c s' => String (lower_ascii c) (lower s')
  end.

Definition eqb (a b : string) : bool := bool_decide (a = b).

End Str.

(* ===================================================================== *)
(** ** os.path: pure path manipulation (posixpath) *)
(* ===================================================================== *)

Module Path.

Definition sep : ascii := "/"%char.

Definition is_sep (c : ascii) : bool := bool_decide (c = sep).

Definition startswith_sep (s : string) : bool :=
  match s with
  | String c _ => is_sep c
  | EmptyString => false
  end.

Fixpoint endswith_sep (s : string) : bool :=
  match s with
  | EmptyString => false
  | String c EmptyString => is_sep c
  | String _ s' => endswith_sep s'
  end.

(** [os.path.join(a, b)]: an absolute [b] replaces [a]; a separator is
    inserted unless [a] is empty or already ends with one. *)
Definition join (a b : string) : string :=
  if startswith_sep b then b
  else if bool_decide (a = "") || endswith_sep a then a +:+ b
  else a +:+ "/" +:+ b.

(** [p.split('/')]: never empty, ["a/b"] gives [["a"; "b"]], a leading
    or trailing separator gives an empty first or last component. *)
Fixpoint split (s : string) : list string :=
  match s with
  | EmptyString => [""]
  | String c s' =>
      if is_sep c then "" :: split s'
      else match split s' with
           | h :: t => String c h :: t
           | [] => [String c ""]
           end
  end.

(** [os.path.basename(p)]: what follows the last separator. *)
Definition basename (p : string) : string := default "" (last (split p)).

Fixpoint has_sep (s : string) : bool :=
  match s with
  | EmptyString => false
  | String c s' => is_sep c || has_sep s'
  end.

(** A name a directory entry can have. *)
Definition simple_name (s : string) : Prop :=
  has_sep s = false ∧ s ≠ "" ∧ s ≠ "." ∧ s ≠ "..".

(** One step of path resolution, on the stack of directories walked. *)
Definition walk (stack : list string) (c : string) : list string :=
  if bool_decide (c = "") || bool_decide (c = ".") then stack
  else if bool_decide (c = "..") then removelast stack
  else stack ++ [c].

(** The location a path string denotes, as the list of names from the
    root; a relative path starts from the working directory.  The empty
    path denotes nothing (ENOENT). *)
Definition resolve (cwd : list string) (p : string) : option (list string) :=
  if bool_decide (p = "") then None
  else Some (fold_left walk (split p) (if startswith_sep p then [] else cwd)).

End Path.

(* ===================================================================== *)
(** ** The file system *)
(* ===================================================================== *)

#[global] Instance byte_eq_dec : EqDecision Byte.byte := Byte.byte_eq_dec.

Inductive node : Type :=
  | File (data : list Byte.byte)
  | Dir (writable : bool).

(** Locations are lists of names from the root; the root is [[]]. *)
Abbreviation location := (list string).
Abbreviation filesystem := (gmap (list string) node).

(** Python exceptions the script can meet.  All but [SystemExit] derive
    from [Exception]. *)
Inductive exn : Type :=
  | FileNotFoundError (path : string)
  | NotADirectoryError (path : string)
  | IsADirectoryError (path : string)
  | FileExistsError (path : string)
  | PermissionError (path : string)
  | SameFileError (src dst : string)
  | OSError_EFBIG (filenames : option (string * string))
  | OperationalError (msg : string)
  | DatabaseError (msg : string)
  | EOFError
  | SystemExit (code : nat).

Definition is_Exception (e : exn) : bool :=
  match e with
  | SystemExit _ => false
  | _ => true
  end.

(** [str(e)], as interpolated by the f-strings of the handlers (the
    quoting of the file name is [repr] without escapes). *)
Definition exn_str (e : exn) : string :=
  let quoted p := "'" +:+ p +:+ "'" in
  match e with
  | FileNotFoundError p => "[Errno 2] No such file or directory: " +:+ quoted p
  | NotADirectoryError p => "[Errno 20] Not a directory: " +:+ quoted p
  | IsADirectoryError p => "[Errno 21] Is a directory: " +:+ quoted p
  | FileExistsError p => "[Errno 17] File exists: " +:+ quoted p
  | PermissionError p => "[Errno 13] Permission denied: " +:+ quoted p
  | SameFileError s d => quoted s +:+ " and " +:+ quoted d +:+ " are the same file"
  | OSError_EFBIG None => "[Errno 27] File too large"
  | OSError_EFBIG (Some (s, d)) =>
      "[Errno 27] File too large: " +:+ quoted s +:+ " -> " +:+ quoted d
  | OperationalError m => m
  | DatabaseError m => m
  | EOFError => "EOF when reading a line"
  | SystemExit code => Str.of_nat code
  end.

Module FS.

Definition is_dir (fs : filesystem) (k : location) : bool :=
  match fs !! k with
  | Some (Dir _) => true
  | _ => false
  end.

Definition is_file (fs : filesystem) (k : location) : bool :=
  match fs !! k with
  | Some (File _) => true
  | _ => false
  end.

Definition dir_writable (fs : filesystem) (k : location) : bool :=
  match fs !! k with
  | Some (Dir w) => w
  | _ => false
  end.

(** The name of [k] when [k] is an immediate entry of [d]. *)
Definition entry_of (d k : location) : option string :=
  match last k with
  | Some n => if bool_decide (removelast k = d) then Some n else None
  | None => None
  end.

(** Names of the immediate entries of [d] (files and directories, no
    recursion); the order is the map's, as [os.listdir] promises none. *)
Definition entries (fs : filesystem) (d : location) : list string :=
  omap (λ kv, entry_of d kv.1) (map_to_list fs).

(** Every entry sits in a directory, all the way up to the root. *)
Definition well_formed (fs : filesystem) : Prop :=
  is_dir fs [] = true ∧
  ∀ k, is_Some (fs !! k) → k ≠ [] → is_dir fs (removelast k) = true.

(** The directories to create for [os.makedirs]: walk down from [here]
    through [todo]; every location on the way must be a directory or be
    created as one. *)
Fixpoint mkdirs (name : string) (here todo : location) (fs : filesystem)
  : exn + filesystem :=
  match fs !! here with
  | Some (Dir w) =>
      match todo with
      | [] => inr fs
      | c :: rest =>
          match fs !! (here ++ [c]) with
          | Some _ => mkdirs name (here ++ [c]) rest fs
          | None =>
              if w then mkdirs name (here ++ [c]) rest (<[here ++ [c] := Dir true]> fs)
              else inl (PermissionError name)
          end
      end
  | Some (File _) =>
      match todo with
      | [] => inl (FileExistsError name)
      | _ :: _ => inl (NotADirectoryError name)
      end
  | None => inl (FileNotFoundError name)
  end.

End FS.

(* ===================================================================== *)
(** ** The world the script runs in, and the monad of its effects *)
(* ===================================================================== *)

(** A reading of [datetime.datetime.now()]. *)
Record datetime : Type := {
  year : nat; month : nat; day : nat;
  hour : nat; minute : nat; second : nat;
  microsecond : nat
}.

(** The three maintenance operations; [calls] below is a ghost history of
    the operations entered, in order. *)
Inductive operation : Type := OpCheck | OpBackup | OpClean.

Record world : Type := {
  fs : filesystem;            (* the host file system *)
  cwd : location;             (* working directory, for relative paths *)
  stdin : list string;        (* lines the operator will still type *)
  stdout : list string;       (* what was written so far, oldest first *)
  clock : datetime;           (* what the clock shows *)
  file_size_limit : option nat;  (* RLIMIT_FSIZE in bytes, if the process has one *)
  calls : list operation      (* ghost: operations entered so far *)
}.

Definition set_fs (f : filesystem) (w : world) : world :=
  {| fs := f; cwd := cwd w; stdin := stdin w; stdout := stdout w;
     clock := clock w; file_size_limit := file_size_limit w; calls := calls w |}.

Definition set_stdin (i : list string) (w : world) : world :=
  {| fs := fs w; cwd := cwd w; stdin := i; stdout := stdout w;
     clock := clock w; file_size_limit := file_size_limit w; calls := calls w |}.

Definition set_stdout (o : list string) (w : world) : world :=
  {| fs := fs w; cwd := cwd w; stdin := stdin w; stdout := o;
     clock := clock w; file_size_limit := file_size_limit w; calls := calls w |}.

Definition set_calls (c : list operation) (w : world) : world :=
  {| fs := fs w; cwd := cwd w; stdin := stdin w; stdout := stdout w;
     clock := clock w; file_size_limit := file_size_limit w; calls := c |}.

(** A computation either returns a value or raises, in a new world. *)
Inductive outcome (A : Type) : Type :=
  | Returns (a : A) (w : world)
  | Raises (e : exn) (w : world).
Arguments Returns {A} a w.
Arguments Raises {A} e w.

Definition py (A : Type) : Type := world → outcome A.

Definition ret {A} (a : A) : py A := λ w, Returns a w.

Definition raise {A} (e : exn) : py A := λ w, Raises e w.

Definition bind {A B} (c : py A) (k : A → py B) : py B :=
  λ w, match c w with
       | Returns a w' => k a w'
       | Raises e w' => Raises e w'
       end.

(** [try: body  except Exception as e: handler(e)]. *)
Definition try_except {A} (body : py A) (handler : exn → py A) : py A :=
  λ w, match body w with
       | Returns a w' => Returns a w'
       | Raises e w' => if is_Exception e then handler e w' else Raises e w'
       end.

Declare Scope py_scope.
Delimit Scope py_scope with py.
Notation "x <- c ;; k" := (bind c (λ x, k))
  (at level 100, c at next level, right associativity) : py_scope.
Notation "c ;; k" := (bind c (λ _, k))
  (at level 100, right associativity) : py_scope.
Open Scope py_scope.

Definition final {A} (o : outcome A) : world :=
  match o with
  | Returns _ w => w
  | Raises _ w => w
  end.

Definition result {A} (o : outcome A) : option A :=
  match o with
  | Returns a _ => Some a
  | Raises _ _ => None
  end.

(** [print(s)]: one entry of [stdout] per call. *)
Definition print (s : string) : py unit :=
  λ w, Returns tt (set_stdout (stdout w ++ [s]) w).

(** [input(prompt)]: writes the prompt, then reads one line (without its
    newline); at end of input it raises [EOFError].  An interrupt from
    the keyboard while it waits is outside the model. *)
Definition input (prompt : string) : py string :=
  λ w, let w' := set_stdout (stdout w ++ [prompt]) w in
       match stdin w with
       | answer :: rest => Returns answer (set_stdin rest w')
       | [] => Raises EOFError w'
       end.

Definition datetime_now : py datetime := λ w, Returns (clock w) w.

(** Ghost: record that an operation was entered. *)
Definition enter (op : operation) : py unit :=
  λ w, Returns tt (set_calls (calls w ++ [op]) w).

(* ===================================================================== *)
(** ** os, os.path and shutil on the world *)
(* ===================================================================== *)

Definition locate (w : world) (p : string) : option location :=
  Path.resolve (cwd w) p.

Definition stat (w : world) (p : string) : option node :=
  k ← locate w p; fs w !! k.

Definition exists_ (w : world) (p : string) : bool :=
  bool_decide (is_Some (stat w p)).

Definition isfile (w : world) (p : string) : bool :=
  match stat w p with
  | Some (File _) => true
  | _ => false
  end.

Definition isdir (w : world) (p : string) : bool :=
  match stat w p with
  | Some (Dir _) => true
  | _ => false
  end.

(** The bytes of the regular file at [p]. *)
Definition read_bytes (w : world) (p : string) : option (list Byte.byte) :=
  match stat w p with
  | Some (File data) => Some data
  | _ => None
  end.

Definition os_path_exists (p : string) : py bool := λ w, Returns (exists_ w p) w.

Definition os_path_isdir (p : string) : py bool := λ w, Returns (isdir w p) w.

(** [os.path.getsize(p)]; the size of a directory's own record is not
    modelled (0). *)
Definition os_path_getsize (p : string) : py nat :=
  λ w, match stat w p with
       | Some (File data) => Returns (length data) w
       | Some (Dir _) => Returns 0 w
       | None => Raises (FileNotFoundError p) w
       end.

(** [os.listdir(p)]. *)
Definition os_listdir (p : string) : py (list string) :=
  λ w, match locate w p with
       | None => Raises (FileNotFoundError p) w
       | Some k =>
           match fs w !! k with
           | Some (Dir _) => Returns (FS.entries (fs w) k) w
           | Some (File _) => Raises (NotADirectoryError p) w
           | None => Raises (FileNotFoundError p) w
           end
       end.

(** [os.remove(p)]: unlinks a regular file; needs write permission on the
    directory that holds it. *)
Definition os_remove (p : string) : py unit :=
  λ w, match locate w p with
       | None => Raises (FileNotFoundError p) w
       | Some k =>
           match fs w !! k with
           | Some (File _) =>
               if FS.dir_writable (fs w) (removelast k)
               then Returns tt (set_fs (delete k (fs w)) w)
               else Raises (PermissionError p) w
           | Some (Dir _) => Raises (IsADirectoryError p) w
           | None => Raises (FileNotFoundError p) w
           end
       end.

(** [os.makedirs(p, exist_ok=True)]: creates [p] and its missing parents;
    an existing directory is accepted, an existing regular file is not.
    The exception carries [p]; Python names the ancestor it failed on. *)
Definition os_makedirs (p : string) : py unit :=
  λ w, match locate w p with
       | None => Raises (FileNotFoundError p) w
       | Some k =>
           match FS.mkdirs p [] k (fs w) with
           | inr f => Returns tt (set_fs f w)
           | inl e => Raises e w
           end
       end.

(** The copy itself, once [src] is open and [dst] is open for writing
    (created, or emptied): the bytes are written to [dst].  Under a limit
    on the size of files, the bytes up to the limit are written and the
    rest is refused ([EFBIG]); the error names the two files unless
    nothing at all could be written. *)
Definition copy_bytes (src dst : string) (kd : location) (data : list Byte.byte)
    : py unit :=
  λ w, match file_size_limit w with
       | Some limit =>
           if limit <? length data then
             Raises (OSError_EFBIG (if limit =? 0 then None else Some (src, dst)))
                    (set_fs (<[kd := File (take limit data)]> (fs w)) w)
           else Returns tt (set_fs (<[kd := File data]> (fs w)) w)
       | None => Returns tt (set_fs (<[kd := File data]> (fs w)) w)
       end.

(** [shutil.copyfile(src, dst)] followed by [copystat]: the bytes of [src]
    replace or create [dst]; copying a file onto itself is refused. *)
Definition shutil_copyfile (src dst : string) : py unit :=
  λ w, match locate w src, locate w dst with
       | Some ks, Some kd =>
           if bool_decide (ks = kd) && bool_decide (is_Some (fs w !! ks))
           then Raises (SameFileError src dst) w
           else match fs w !! ks with
                | None => Raises (FileNotFoundError src) w
                | Some (Dir _) => Raises (IsADirectoryError src) w
                | Some (File data) =>
                    match fs w !! kd with
                    | Some (Dir _) => Raises (IsADirectoryError dst) w
                    | Some (File _) => copy_bytes src dst kd data w
                    | None =>
                        match fs w !! removelast kd with
                        | Some (Dir true) => copy_bytes src dst kd data w
                        | Some (Dir false) => Raises (PermissionError dst) w
                        | Some (File _) => Raises (NotADirectoryError dst) w
                        | None => Raises (FileNotFoundError dst) w
                        end
                    end
                end
       | None, _ => Raises (FileNotFoundError src) w
       | _, None => Raises (FileNotFoundError dst) w
       end.

(** [shutil.copy2(src, dst)]: when [dst] is a directory the copy goes
    inside it, under the base name of [src]; returns where it went. *)
Definition shutil_copy2 (src dst : string) : py string :=
  d <- os_path_isdir dst ;;
  let dst := if d then Path.join dst (Path.basename src) else dst in
  shutil_copyfile src dst ;;
  ret dst.

(* ===================================================================== *)
(** ** sqlite3 *)
(* ===================================================================== *)

(** A value as [sqlite3] hands it to Python: [None], [int], [float]
    ([m * 2^e]), [str] or [bytes]. *)
Inductive sql_value : Type :=
  | SqlNull
  | SqlInteger (n : Z)
  | SqlReal (m e : Z)
  | SqlText (s : string)
  | SqlBlob (b : list Byte.byte).

(** Python truthiness, the test of [if row[0]]. *)
Definition truthy (v : sql_value) : bool :=
  match v with
  | SqlNull => false
  | SqlInteger n => negb (Z.eqb n 0)
  | SqlReal m _ => negb (Z.eqb m 0)
  | SqlText s => negb (Str.eqb s "")
  | SqlBlob b => negb (bool_decide (b = []))
  end.

(** [p == v] for a [str] [p]: only a [str] with the same characters. *)
Definition str_eq_value (p : string) (v : sql_value) : bool :=
  match v with
  | SqlText s => Str.eqb p s
  | _ => false
  end.

(** [p in values] for a list. *)
Definition str_in (p : string) (values : list sql_value) : bool :=
  existsb (str_eq_value p) values.

(** What the script reads of a table: its number of rows and its path
    column, when it has one. *)
Inductive table : Type :=
  | NoSuchColumn (rows : nat)
  | Column (values : list sql_value).

Definition row_count (t : table) : nat :=
  match t with
  | NoSuchColumn n => n
  | Column values => length values
  end.

Record database : Type := {
  meetings : option table;                (* column audio_path *)
  pdfs : option table;                    (* column file_path *)
  integrity_check : string + string       (* error message, or first row *)
}.

(** The SQLite file format, taken as given: which bytes are a database,
    and which one. *)
Class Sqlite : Type := { sqlite_decode : list Byte.byte → option database }.

(** An open connection: the location of the file. *)
Abbreviation connection := (list string).

Definition unable_to_open : exn := OperationalError "unable to open database file".

(** [sqlite3.connect(p)]: opens the file, creating an empty one when
    nothing is there; a directory cannot be opened. *)
Definition sqlite3_connect (p : string) : py connection :=
  λ w, match locate w p with
       | None => Raises unable_to_open w
       | Some k =>
           match fs w !! k with
           | Some (File _) => Returns k w
           | Some (Dir _) => Raises unable_to_open w
           | None =>
               if FS.dir_writable (fs w) (removelast k)
               then Returns k (set_fs (<[k := File []]> (fs w)) w)
               else Raises unable_to_open w
           end
       end.

Section Queries.
Context {engine : Sqlite}.

(** What a query sees: the database held by the file behind the
    connection.  Reading is taken to leave the file system alone. *)
Definition read_database (conn : connection) : py database :=
  λ w, match fs w !! conn with
       | Some (File data) =>
           match sqlite_decode data with
           | Some db => Returns db w
           | None => Raises (DatabaseError "file is not a database") w
           end
       | _ => Raises unable_to_open w
       end.

(** [SELECT COUNT( * ) FROM name], first column of the first row. *)
Definition select_count (name : string) (tbl : database → option table)
    (conn : connection) : py nat :=
  db <- read_database conn ;;
  match tbl db with
  | Some t => ret (row_count t)
  | None => raise (OperationalError ("no such table: " +:+ name))
  end.

(** [SELECT col FROM name], first column of every row. *)
Definition select_column (col name : string) (tbl : database → option table)
    (conn : connection) : py (list sql_value) :=
  db <- read_database conn ;;
  match tbl db with
  | Some (Column values) => ret values
  | Some (NoSuchColumn _) => raise (OperationalError ("no such column: " +:+ col))
  | None => raise (OperationalError ("no such table: " +:+ name))
  end.

(** [PRAGMA integrity_check], first column of the first row. *)
Definition pragma_integrity_check (conn : connection) : py string :=
  db <- read_database conn ;;
  match integrity_check db with
  | inr row => ret row
  | inl msg => raise (DatabaseError msg)
  end.

End Queries.

(* ===================================================================== *)
(** ** Formatting *)
(* ===================================================================== *)

Fixpoint zeros (n : nat) : string :=
  match n with
  | O => ""
  | S n' => String "0"%char (zeros n')
  end.

(** A decimal field padded with zeros to [width] digits. *)
Definition zfill (width n : nat) : string :=
  let s := Str.of_nat n in zeros (width - String.length s) +:+ s.

(** [t.strftime("%Y%m%d_%H%M%S")]: the year on four digits, the other
    fields on two; the microseconds are not used. *)
Definition strftime (t : datetime) : string :=
  zfill 4 (year t) +:+ zfill 2 (month t) +:+ zfill 2 (day t) +:+ "_" +:+
  zfill 2 (hour t) +:+ zfill 2 (minute t) +:+ zfill 2 (second t).

(** The nearest integer with a last bit of weight [2^k], ties to even:
    [n] in units of [2^k]. *)
Definition round_shift (n k : N) : N :=
  let q := N.shiftr n k in
  let r := N.land n (N.ones k) in
  let half := N.shiftl 1 (N.pred k) in
  if (k =? 0)%N then n
  else if (half <? r)%N || ((r =? half)%N && N.odd q) then N.succ q else q.

(** The [float] nearest to a non-negative [int]: the integer itself as
    long as it has no more than 53 significant bits, and beyond that the
    nearest integer with 53 significant bits, ties to even.  (Integers
    of 2^1024 and more have no [float].) *)
Definition float_of_int (n : N) : N :=
  let excess := (N.size n - 53)%N in
  N.shiftl (round_shift n excess) excess.

(** [f"{x:.2f}"] for the float [x = m / 2^k]: the decimal with two
    digits after the point nearest to [x], ties to even. *)
Definition format_2f (m k : N) : string :=
  let scaled := (m * 100)%N in
  let q := N.shiftr scaled k in
  let r := N.land scaled (N.ones k) in
  let half := N.shiftl 1 (N.pred k) in
  let h := if (half <? r)%N || ((r =? half)%N && N.odd q) then N.succ q else q in
  Str.of_N (h / 100) +:+ "." +:+ zfill 2 (N.to_nat (h mod 100)).

(** [size / (1024 * 1024)] formatted with [:.2f].  [int / int] is the
    float nearest to the quotient; the divisor being [2^20], that is the
    float nearest to [size], divided by [2^20]. *)
Definition megabytes_2f (size : N) : string :=
  format_2f (float_of_int size) 20.

Definition format_megabytes (size : nat) : string :=
  megabytes_2f (N.of_nat size).

(* ===================================================================== *)
(** ** argparse, for a parser with three [store_true] flags *)
(* ===================================================================== *)

Module Argparse.

Inductive action : Type := Help | StoreCheck | StoreBackup | StoreClean.

(** The option strings of the parser, in the order they were added. *)
Definition option_strings : list (string * action) :=
  [("-h", Help); ("--help", Help); ("--check", StoreCheck);
   ("--backup", StoreBackup); ("--clean", StoreClean)].

Definition lookup (s : string) : option action :=
  snd <$> find (λ o, Str.eqb o.1 s) option_strings.

(** [s.split('=', 1)]: what precedes the first ['='], and what follows
    it when there is one. *)
Fixpoint split_eq (s : string) : string * option string :=
  match s with
  | EmptyString => ("", None)
  | String c s' =>
      if bool_decide (c = "="%char) then ("", Some s')
      else (String c (split_eq s').1, (split_eq s').2)
  end.

(** [s[:2]] and [s[2:]]. *)
Definition take2 (s : string) : string :=
  match s with
  | String a (String b _) => String a (String b "")
  | _ => s
  end.

Definition drop2 (s : string) : string :=
  match s with
  | String _ (String _ rest) => rest
  | _ => ""
  end.

Definition long_form (s : string) : bool :=
  match s with
  | String _ (String b _) => bool_decide (b = "-"%char)
  | _ => false
  end.

(** [_get_option_tuples]: the options an argument can stand for.  One
    with two dashes abbreviates every option string it is a prefix of,
    up to its ['=']; one with a single dash is a one-letter option
    followed by more, or a prefix of an option string. *)
Definition option_tuples (arg : string) : list (action * string * option string) :=
  if long_form arg then
    omap (λ o : string * action,
            if String.prefix (split_eq arg).1 o.1
            then Some (o.2, o.1, (split_eq arg).2) else None)
         option_strings
  else
    omap (λ o : string * action,
            if Str.eqb o.1 (take2 arg) then Some (o.2, o.1, Some (drop2 arg))
            else if String.prefix arg o.1 then Some (o.2, o.1, None)
            else None)
         option_strings.

(** What one argument is to the parser: an option with the string it
    stands for and the argument glued to it, an ambiguous abbreviation,
    or something the parser leaves over (a positional argument or an
    unknown option; the parser declares no positional argument). *)
Inductive interpretation : Type :=
  | Optional (a : action) (option_string : string) (explicit_arg : option string)
  | Ambiguous
  | Extra.

(** [_parse_optional]. *)
Definition parse_optional (arg : string) : interpretation :=
  match arg with
  | EmptyString => Extra
  | String c rest =>
      if negb (bool_decide (c = "-"%char)) then Extra
      else
        match lookup arg with
        | Some a => Optional a arg None
        | None =>
            if bool_decide (rest = "") then Extra
            else
              match (split_eq arg).2, lookup (split_eq arg).1 with
              | Some e, Some a => Optional a (split_eq arg).1 (Some e)
              | _, _ =>
                  match option_tuples arg with
                  | [] => Extra
                  | [(a, o, e)] => Optional a o e
                  | _ :: _ :: _ => Ambiguous
                  end
              end
        end
  end.

Record Namespace : Type := { check : bool; backup : bool; clean : bool }.

Definition store (a : action) (ns : Namespace) : Namespace :=
  match a with
  | Help => ns
  | StoreCheck => {| check := true; backup := backup ns; clean := clean ns |}
  | StoreBackup => {| check := check ns; backup := true; clean := clean ns |}
  | StoreClean => {| check := check ns; backup := backup ns; clean := true |}
  end.

(** How [parse_args] ends: with the namespace, or with the process
    ended by the help action or by [error]. *)
Inductive parsed : Type :=
  | Parsed (args : Namespace)
  | HelpExit
  | UsageError.

Fixpoint all_h (s : string) : bool :=
  match s with
  | EmptyString => true
  | String c s' => bool_decide (c = "h"%char) && all_h s'
  end.

(** The arguments are consumed from left to right.  An option without
    argument acts at once: [-h] ends the process, a flag is stored.  No
    option takes an argument, so an argument glued to one is an error,
    but for one-letter options written together ([-hh]).  What is left
    over, and [--] with all that follows it, is refused at the end. *)
Fixpoint consume (argv : list string) (args : Namespace) (extras : bool) : parsed :=
  match argv with
  | [] => if extras then UsageError else Parsed args
  | arg :: rest =>
      if Str.eqb arg "--" then UsageError
      else
        match parse_optional arg with
        | Extra => consume rest args true
        | Ambiguous => UsageError
        | Optional Help _ None => HelpExit
        | Optional a _ None => consume rest (store a args) extras
        | Optional _ o (Some e) =>
            if Str.eqb o "-h" && negb (Str.eqb e "") && all_h e then HelpExit
            else UsageError
        end
  end.

(** The arguments that can be options: those before the first [--]. *)
Fixpoint before_dashes (argv : list string) : list string :=
  match argv with
  | [] => []
  | arg :: rest => if Str.eqb arg "--" then [] else arg :: before_dashes rest
  end.

Definition ambiguous (arg : string) : bool :=
  match parse_optional arg with
  | Ambiguous => true
  | _ => false
  end.

(** [parse_args] of Python 3.11, as to its outcome: every argument is
    interpreted first, where an ambiguous abbreviation is an error, and
    then they are consumed. *)
Definition parse (argv : list string) : parsed :=
  if existsb ambiguous (before_dashes argv) then UsageError
  else consume argv {| check := false; backup := false; clean := false |} false.

End Argparse.

(* ===================================================================== *)
(** ** The script *)
(* ===================================================================== *)

(** [app.core.config.settings], as far as the script reads it. *)
Record Settings : Type := {
  DATA_DIR : string;
  UPLOAD_DIR : string;
  PDF_DIR : string
}.

Section Script.
Context {engine : Sqlite} (settings : Settings).

Definition db_path : string := Path.join (DATA_DIR settings) "meetings.db".

Definition not_found : string := "Database not found at: " +:+ db_path.

(** Check database status and print information. *)
Definition check_database : py bool :=
  enter OpCheck ;;
  found <- os_path_exists db_path ;;
  if negb found then
    print not_found ;;
    ret false
  else
    try_except
      (conn <- sqlite3_connect db_path ;;
       meeting_count <- select_count "meetings" meetings conn ;;
       pdf_count <- select_count "pdfs" pdfs conn ;;
       db_size <- os_path_getsize db_path ;;
       print "Database Status:" ;;
       print ("  - Location: " +:+ db_path) ;;
       print ("  - Size: " +:+ format_megabytes db_size +:+ " MB") ;;
       print ("  - Meetings: " +:+ Str.of_nat meeting_count) ;;
       print ("  - PDF records: " +:+ Str.of_nat pdf_count) ;;
       integrity <- pragma_integrity_check conn ;;
       print ("  - Integrity check: " +:+ integrity) ;;
       ret true)
      (λ e, print ("Error checking database: " +:+ exn_str e) ;;
            ret false).

Definition backup_dir : string := Path.join (DATA_DIR settings) "backups".

Definition backup_name (t : datetime) : string :=
  "meetings_" +:+ strftime t +:+ ".db".

Definition backup_path (t : datetime) : string :=
  Path.join backup_dir (backup_name t).

(** Create a backup of the database. *)
Definition backup_database : py bool :=
  enter OpBackup ;;
  found <- os_path_exists db_path ;;
  if negb found then
    print not_found ;;
    ret false
  else
    try_except
      (now <- datetime_now ;;
       os_makedirs backup_dir ;;
       shutil_copy2 db_path (backup_path now) ;;
       print ("Database backed up to: " +:+ backup_path now) ;;
       ret true)
      (λ e, print ("Error backing up database: " +:+ exn_str e) ;;
            ret false).

(** [[row[0] for row in cursor.fetchall() if row[0]]]. *)
Definition reference_paths (column : list sql_value) : list sql_value :=
  filter (λ v, truthy v = true) column.

(** The loop over one directory: the joined paths of the names listed
    that are regular files and are not among the reference paths.
    [os.path.isfile] reads the world and changes nothing. *)
Definition orphans (w : world) (dir : string) (names : list string)
    (db_paths : list sql_value) : list string :=
  filter (λ file_path, isfile w file_path && negb (str_in file_path db_paths) = true)
         (map (Path.join dir) names).

Definition orphaned_files (dir : string) (names : list string)
    (db_paths : list sql_value) : py (list string) :=
  λ w, Returns (orphans w dir names db_paths) w.

Definition delete_failure (file_path : string) (e : exn) : string :=
  "Failed to delete " +:+ file_path +:+ ": " +:+ exn_str e.

(** The deletion loop, with its counter. *)
Fixpoint delete_files (paths : list string) (deleted_count : nat) : py nat :=
  match paths with
  | [] => ret deleted_count
  | file_path :: rest =>
      n <- try_except
             (os_remove file_path ;;
              ret (deleted_count + 1))
             (λ e, print (delete_failure file_path e) ;;
                   ret deleted_count) ;;
      delete_files rest n
  end.

Definition confirm_prompt : string :=
  "Do you want to delete these orphaned files? (y/n): ".

(** The queries and the two directory scans: the orphaned uploads and
    the orphaned PDFs. *)
Definition find_orphans : py (list string * list string) :=
  conn <- sqlite3_connect db_path ;;
  audio <- select_column "audio_path" "meetings" meetings conn ;;
  let db_audio_paths := reference_paths audio in
  files <- select_column "file_path" "pdfs" pdfs conn ;;
  let db_pdf_paths := reference_paths files in
  upload_names <- os_listdir (UPLOAD_DIR settings) ;;
  upload_files <- orphaned_files (UPLOAD_DIR settings) upload_names db_audio_paths ;;
  pdf_names <- os_listdir (PDF_DIR settings) ;;
  pdf_files <- orphaned_files (PDF_DIR settings) pdf_names db_pdf_paths ;;
  ret (upload_files, pdf_files).

Definition found_uploads (n : nat) : string :=
  "Found " +:+ Str.of_nat n +:+ " orphaned upload files".

Definition found_pdfs (n : nat) : string :=
  "Found " +:+ Str.of_nat n +:+ " orphaned PDF files".

Definition deleted_line (n : nat) : string :=
  "Deleted " +:+ Str.of_nat n +:+ " orphaned files".

Definition cleaning_error (e : exn) : string :=
  "Error cleaning orphaned files: " +:+ exn_str e.

(** Find and clean orphaned files that don't have database records. *)
Definition clean_orphaned_files : py bool :=
  enter OpClean ;;
  found <- os_path_exists db_path ;;
  if negb found then
    print not_found ;;
    ret false
  else
    try_except
      (found <- find_orphans ;;
       let upload_files := found.1 in
       let pdf_files := found.2 in
       print (found_uploads (length upload_files)) ;;
       print (found_pdfs (length pdf_files)) ;;
       if bool_decide (upload_files = []) && bool_decide (pdf_files = []) then
         print "No orphaned files to clean up" ;;
         ret true
       else
         answer <- input confirm_prompt ;;
         if negb (Str.eqb (Str.lower answer) "y") then
           print "Cleanup aborted" ;;
           ret false
         else
           deleted_count <- delete_files (upload_files ++ pdf_files) 0 ;;
           print (deleted_line deleted_count) ;;
           ret true)
      (λ e, print (cleaning_error e) ;;
            ret false).

(** [parser.format_help()] for the three flags. *)
Definition format_help : string :=
  "usage: db_utils.py [-h] [--check] [--backup] [--clean]

Database maintenance utilities

options:
  -h, --help  show this help message and exit
  --check     Check database status
  --backup    Create a database backup
  --clean     Clean orphaned files
".

(** [parser.parse_args()] on the arguments of the command line.  The
    help action writes the help text to standard output and ends the
    process with status 0; a command line that is refused ends it with
    status 2, after a message on standard error, which the model does
    not keep. *)
Definition parse_args (argv : list string) : py Argparse.Namespace :=
  match Argparse.parse argv with
  | Argparse.Parsed args => ret args
  | Argparse.HelpExit => print format_help ;; raise (SystemExit 0)
  | Argparse.UsageError => raise (SystemExit 2)
  end.

(** Main function to parse arguments and execute commands. *)
Definition main (argv : list string) : py unit :=
  args <- parse_args argv ;;
  if negb (Argparse.check args || Argparse.backup args || Argparse.clean args) then
    print format_help
  else
    os_makedirs (DATA_DIR settings) ;;
    (if Argparse.check args then check_database ;; ret tt else ret tt) ;;
    (if Argparse.backup args then backup_database ;; ret tt else ret tt) ;;
    (if Argparse.clean args then clean_orphaned_files ;; ret tt else ret tt).

End Script.

(* ===================================================================== *)
(** ** Properties of computations, for the proofs *)
(* ===================================================================== *)

Definition map_world (f : world → world) {A} (o : outcome A) : outcome A :=
  match o with
  | Returns a w => Returns a (f w)
  | Raises e w => Raises e (f w)
  end.

(** The ghost history is never read: a computation does the same from a
    world with another history. *)
Definition ignores_calls {A} (c : py A) : Prop :=
  ∀ cs w, c (set_calls cs w) = map_world (set_calls cs) (c w).

(** [R] relates the world before to the world after, however [c] ends. *)
Definition preserves (R : relation world) {A} (c : py A) : Prop :=
  ∀ w, R w (final (c w)).

(** [c] raises nothing but subclasses of [Exception]. *)
Definition safe {A} (c : py A) : Prop :=
  ∀ w, match c w with
       | Raises e _ => is_Exception e = true
       | Returns _ _ => True
       end.

(** [c] always returns. *)
Definition total {A} (c : py A) : Prop := ∀ w, ∃ a w', c w = Returns a w'.

(** Directories stay: nothing the script calls removes one. *)
Definition keeps_dirs (w w' : world) : Prop :=
  cwd w' = cwd w ∧ ∀ k, FS.is_dir (fs w) k = true → FS.is_dir (fs w') k = true.

(** What every step but [enter] does: directories stay and the ghost
    history is left alone. *)
Definition quiet (w w' : world) : Prop :=
  calls w' = calls w ∧ keeps_dirs w w'.

(** The world after an operation was entered and wrote [lines], having
    touched nothing else. *)
Definition reported (op : operation) (lines : list string) (w : world) : world :=
  set_stdout (stdout w ++ lines) (set_calls (calls w ++ [op]) w).

(** The database the file at [DATA_DIR/meetings.db] holds. *)
Definition current_database `{Sqlite} (settings : Settings) (w : world)
    : option database :=
  data ← read_bytes w (db_path settings); sqlite_decode data.

(** Where [shutil.copy2] puts the backup: at the backup path, or inside
    it when a directory is already there. *)
Definition backup_target (settings : Settings) (w : world) : string :=
  let dst := backup_path settings (clock w) in
  if isdir w dst then Path.join dst "meetings.db" else dst.

(** Two clock readings within the same second. *)
Definition same_second (t t' : datetime) : Prop :=
  year t = year t' ∧ month t = month t' ∧ day t = day t' ∧
  hour t = hour t' ∧ minute t = minute t' ∧ second t = second t'.

(** The three flags, and how they are spelled on the command line. *)
Inductive flag : Type := CheckFlag | BackupFlag | CleanFlag.

#[global] Instance flag_eq_dec : EqDecision flag.
Proof. solve_decision. Defined.

Definition token (f : flag) : string :=
  match f with
  | CheckFlag => "--check"
  | BackupFlag => "--backup"
  | CleanFlag => "--clean"
  end.

(** The operations a list of flags asks for, in the order check, backup,
    clean; the order of the flags and their repetitions do not count. *)
Definition requested (flags : list flag) : list operation :=
  (if bool_decide (CheckFlag ∈ flags) then [OpCheck] else []) ++
  (if bool_decide (BackupFlag ∈ flags) then [OpBackup] else []) ++
  (if bool_decide (CleanFlag ∈ flags) then [OpClean] else []).

Definition selected (flags : list flag) : Argparse.Namespace :=
  {| Argparse.check := bool_decide (CheckFlag ∈ flags);
     Argparse.backup := bool_decide (BackupFlag ∈ flags);
     Argparse.clean := bool_decide (CleanFlag ∈ flags) |}.

(** The exception a computation ended with, if any. *)
Definition raised {A} (o : outcome A) : option exn :=
  match o with
  | Returns _ _ => None
  | Raises e _ => Some e
  end.

(* ===================================================================== *)
(** ** A small installation, to run the script on *)
(* ===================================================================== *)

Module Demo.

Definition settings : Settings :=
  {| DATA_DIR := "/srv/data"; UPLOAD_DIR := "/srv/uploads"; PDF_DIR := "/srv/pdfs" |}.

(** The bytes of the database file, and the database they hold: two
    meetings with audio, one without (NULL), one with an empty path;
    one PDF. *)
Definition db_bytes : list Byte.byte := [Byte.x53; Byte.x51; Byte.x4c].

Definition db : database :=
  {| meetings := Some (Column [SqlText "/srv/uploads/a.wav"; SqlNull;
                               SqlText "/srv/uploads/b.wav"; SqlText ""]);
     pdfs := Some (Column [SqlText "/srv/pdfs/a.pdf"]);
     integrity_check := inr "ok" |}.

#[export] Instance engine : Sqlite :=
  {| sqlite_decode data := if bool_decide (data = db_bytes) then Some db else None |}.

Definition audio : list Byte.byte := [Byte.x52; Byte.x49; Byte.x46; Byte.x46].

Definition pdf : list Byte.byte := [Byte.x25; Byte.x50; Byte.x44; Byte.x46].

(** /srv/uploads holds a.wav, b.wav and the orphan c.wav; /srv/pdfs is
    read-only and holds a.pdf and the orphan z.pdf. *)
Definition files : filesystem :=
  list_to_map
    [([], Dir true);
     (["srv"], Dir true);
     (["srv"; "data"], Dir true);
     (["srv"; "data"; "meetings.db"], File db_bytes);
     (["srv"; "uploads"], Dir true);
     (["srv"; "uploads"; "a.wav"], File audio);
     (["srv"; "uploads"; "b.wav"], File audio);
     (["srv"; "uploads"; "c.wav"], File audio);
     (["srv"; "uploads"; "archive"], Dir true);
     (["srv"; "pdfs"], Dir false);
     (["srv"; "pdfs"; "a.pdf"], File pdf);
     (["srv"; "pdfs"; "z.pdf"], File pdf)].

Definition noon : datetime :=
  {| year := 2024; month := 3; day := 9; hour := 12; minute := 5; second := 7;
     microsecond := 4242 |}.

Definition start (answers : list string) : world :=
  {| fs := files; cwd := ["srv"]; stdin := answers; stdout := [];
     clock := noon; file_size_limit := None; calls := [] |}.

End Demo.

Module Scenes.
Import Demo.

(** [DATA_DIR] not created yet. *)
Definition fresh_settings : Settings :=
  {| DATA_DIR := "/srv/var/data"; UPLOAD_DIR := "/srv/uploads"; PDF_DIR := "/srv/pdfs" |}.

(** [DATA_DIR] below a directory that is not writable. *)
Definition locked_settings : Settings :=
  {| DATA_DIR := "/srv/pdfs/data"; UPLOAD_DIR := "/srv/uploads"; PDF_DIR := "/srv/pdfs" |}.

(** [DATA_DIR] in place, without a database in it. *)
Definition idle_settings : Settings :=
  {| DATA_DIR := "/srv/uploads"; UPLOAD_DIR := "/srv/uploads"; PDF_DIR := "/srv/pdfs" |}.

(** [UPLOAD_DIR] missing. *)
Definition unlisted_settings : Settings :=
  {| DATA_DIR := "/srv/data"; UPLOAD_DIR := "/srv/inbox"; PDF_DIR := "/srv/pdfs" |}.

(** The installation with a directory sitting where the backup taken
    at [noon] is to be written. *)
Definition occupied : world :=
  set_fs (<[["srv"; "data"; "backups"; "meetings_20240309_120507.db"] := Dir true]>
           (<[["srv"; "data"; "backups"] := Dir true]> files))
         (start []).

(** The installation with the permissions the other way round
    ([/srv/uploads] read-only, [/srv/pdfs] writable), and an operator
    who answers "Y". *)
Definition guarded : world :=
  set_fs (<[["srv"; "uploads"] := Dir false]> (<[["srv"; "pdfs"] := Dir true]> files))
         (start ["Y"]).

(** The installation without its two orphans. *)
Definition tidy : world :=
  set_fs (delete ["srv"; "uploads"; "c.wav"] (delete ["srv"; "pdfs"; "z.pdf"] files))
         (start []).

End Scenes.

(** [os.remove] accepts the path [p]: it denotes the regular file at [k],
    in a directory that can be written. *)
Definition removable (w : world) (p : string) (k : location) : Prop :=
  locate w p = Some k ∧ FS.is_file (fs w) k = true ∧
  FS.dir_writable (fs w) (removelast k) = true.

(** The values [datetime.datetime.now()] can take. *)
Definition valid_datetime (t : datetime) : Prop :=
  1 ≤ year t ≤ 9999 ∧ 1 ≤ month t ≤ 12 ∧ 1 ≤ day t ≤ 31 ∧
  hour t ≤ 23 ∧ minute t ≤ 59 ∧ second t ≤ 59.

(** The lines of a status report. *)
Definition status_lines (settings : Settings) (size meeting_count pdf_count : nat)
    : list string :=
  ["Database Status:";
   "  - Location: " +:+ db_path settings;
   "  - Size: " +:+ format_megabytes size +:+ " MB";
   "  - Meetings: " +:+ Str.of_nat meeting_count;
   "  - PDF records: " +:+ Str.of_nat pdf_count].

Definition checking_error (e : exn) : string :=
  "Error checking database: " +:+ exn_str e.

Module Cases.
Import Demo.

(** A database without the [pdfs] table, whose [meetings] table has
    seven rows and no [audio_path] column. *)
Definition sparse_db : database :=
  {| meetings := Some (NoSuchColumn 7); pdfs := None; integrity_check := inr "ok" |}.

Definition sparse_engine : Sqlite :=
  {| sqlite_decode data := if bool_decide (data = db_bytes) then Some sparse_db else None |}.

(** A database on which the integrity check raises. *)
Definition damaged_db : database :=
  {| meetings := Some (Column [SqlNull]); pdfs := Some (Column []);
     integrity_check := inl "database disk image is malformed" |}.

Definition damaged_engine : Sqlite :=
  {| sqlite_decode data := if bool_decide (data = db_bytes) then Some damaged_db else None |}.

(** The installation with an audio file put in the place of the
    database. *)
Definition garbled : world :=
  set_fs (<[["srv"; "data"; "meetings.db"] := File audio]> files) (start []).

(** The installation with a directory named like the database. *)
Definition nested : world :=
  set_fs (<[["srv"; "data"; "meetings.db"] := Dir true]> files) (start []).

(** The installation with [DATA_DIR] not writable. *)
Definition sealed : world :=
  set_fs (<[["srv"; "data"] := Dir false]> files) (start []).

(** The installation for a process that may not write files of more
    than two bytes. *)
Definition capped : world :=
  {| fs := files; cwd := ["srv"]; stdin := []; stdout := [];
     clock := noon; file_size_limit := Some 2; calls := [] |}.

(** A clock reading later in the same second as [noon]. *)
Definition noon_later : datetime :=
  {| year := 2024; month := 3; day := 9; hour := 12; minute := 5; second := 7;
     microsecond := 4243 |}.

End Cases.

(* ===================================================================== *)
(** * Facts about paths *)
(* ===================================================================== *)

Module PathFacts.
Import Path.

Lemma append_nil b : "" +:+ b = b.
Proof. reflexivity. Qed.

Lemma append_cons x a b : String x a +:+ b = String x (a +:+ b).
Proof. reflexivity. Qed.

Lemma append_assoc a b c : (a +:+ b) +:+ c = a +:+ b +:+ c.
Proof.
  induction a as [|x a IH]; [done|]. by rewrite !append_cons, IH.
Qed.

Lemma split_nonempty s : split s ≠ [].
Proof.
  destruct s as [|c s]; simpl; [done|].
  destruct (is_sep c); [done|]. by destruct (split s).
Qed.

Lemma split_app_sep a b : split (a +:+ String sep b) = split a ++ split b.
Proof.
  induction a as [|c a IH]; [done|].
  rewrite append_cons. simpl.
  destruct (is_sep c); [by rewrite IH|].
  rewrite IH. pose proof (split_nonempty a) as Hne.
  by destruct (split a).
Qed.

Lemma split_no_sep n : has_sep n = false → split n = [n].
Proof.
  induction n as [|c n IH]; simpl; [done|].
  intros [Hc Hn]%orb_false_elim. rewrite Hc, (IH Hn). done.
Qed.

Lemma endswith_sep_inv a : endswith_sep a = true → ∃ a', a = a' +:+ String sep "".
Proof.
  induction a as [|c a IH]; simpl; [done|].
  destruct a as [|c' a].
  - unfold is_sep. intros ->%bool_decide_eq_true. by exists "".
  - intros [a' Ha']%IH. exists (String c a'). by rewrite Ha', append_cons.
Qed.

Lemma startswith_sep_no_sep n : has_sep n = false → startswith_sep n = false.
Proof. destruct n as [|c n]; simpl; [done|]. by intros [? _]%orb_false_elim. Qed.

Lemma startswith_sep_app a b : a ≠ "" → startswith_sep (a +:+ b) = startswith_sep a.
Proof. by destruct a. Qed.

Lemma app_not_empty a b : a ≠ "" → a +:+ b ≠ "".
Proof. by destruct a. Qed.

(** The components of a joined path are those of the directory followed
    by the name; a trailing separator of the directory leaves an empty
    component in between, which resolution skips. *)
Lemma split_join d n :
  d ≠ "" → has_sep n = false →
  (endswith_sep d = false ∧ split (join d n) = split d ++ [n]) ∨
  (∃ d', split d = split d' ++ [""] ∧ split (join d n) = split d' ++ [n]).
Proof.
  intros Hd Hn. unfold join.
  rewrite (startswith_sep_no_sep n Hn), (bool_decide_eq_false_2 _ Hd). simpl.
  destruct (endswith_sep d) eqn:He.
  - right. apply endswith_sep_inv in He as [d' ->]. exists d'. split.
    + by rewrite split_app_sep.
    + rewrite append_assoc, append_cons, append_nil.
      by rewrite split_app_sep, (split_no_sep n Hn).
  - left. split; [done|].
    change (d +:+ "/" +:+ n) with (d +:+ String sep n).
    by rewrite split_app_sep, (split_no_sep n Hn).
Qed.

Lemma startswith_sep_join d n :
  d ≠ "" → has_sep n = false → startswith_sep (join d n) = startswith_sep d.
Proof.
  intros Hd Hn. unfold join.
  rewrite (startswith_sep_no_sep n Hn), (bool_decide_eq_false_2 _ Hd). simpl.
  destruct (endswith_sep d); by apply startswith_sep_app.
Qed.

Lemma join_not_empty d n : d ≠ "" → has_sep n = false → join d n ≠ "".
Proof.
  intros Hd Hn. unfold join.
  rewrite (startswith_sep_no_sep n Hn), (bool_decide_eq_false_2 _ Hd). simpl.
  destruct (endswith_sep d); by apply app_not_empty.
Qed.

Lemma walk_simple stack n : simple_name n → walk stack n = stack ++ [n].
Proof.
  intros (_ & H1 & H2 & H3). unfold walk.
  by rewrite !bool_decide_eq_false_2.
Qed.

(** A name joined to a directory denotes the entry of that name in it. *)
Lemma resolve_join cwd d n k :
  simple_name n → resolve cwd d = Some k → resolve cwd (join d n) = Some (k ++ [n]).
Proof.
  intros Hn. pose proof Hn as (Hs & _). unfold resolve.
  case_bool_decide as Hd; [done|]. intros [= <-].
  rewrite (bool_decide_eq_false_2 _ (join_not_empty d n Hd Hs)).
  rewrite (startswith_sep_join d n Hd Hs). f_equal.
  destruct (split_join d n Hd Hs) as [[_ ->]|(d' & Hd' & ->)].
  - by rewrite fold_left_app; simpl; rewrite walk_simple.
  - rewrite Hd', !fold_left_app. simpl. by rewrite walk_simple.
Qed.

Lemma basename_join d n : has_sep n = false → basename (join d n) = n.
Proof.
  intros Hn. unfold basename. destruct (decide (d = "")) as [->|Hd].
  - unfold join. rewrite (startswith_sep_no_sep n Hn). simpl.
    by rewrite append_nil, (split_no_sep n Hn).
  - destruct (split_join d n Hd Hn) as [[_ ->]|(d' & _ & ->)];
      by rewrite last_snoc.
Qed.

Lemma has_sep_app a b : has_sep (a +:+ b) = has_sep a || has_sep b.
Proof.
  induction a as [|c a IH]; [done|].
  rewrite append_cons. simpl. by rewrite IH, orb_assoc.
Qed.

Lemma has_sep_uint d : has_sep (NilEmpty.string_of_uint d) = false.
Proof. induction d; simpl; done. Qed.

Lemma has_sep_zeros n : has_sep (zeros n) = false.
Proof. induction n; simpl; done. Qed.

Lemma has_sep_zfill w n : has_sep (zfill w n) = false.
Proof.
  unfold zfill, Str.of_nat. by rewrite has_sep_app, has_sep_zeros, has_sep_uint.
Qed.

Lemma has_sep_strftime t : has_sep (strftime t) = false.
Proof. unfold strftime. by rewrite !has_sep_app, !has_sep_zfill. Qed.

End PathFacts.

(* ===================================================================== *)
(** * Facts about the file system *)
(* ===================================================================== *)

Module FSFacts.
Import FS.

Lemma is_dir_insert_file (f : filesystem) k k' data :
  is_dir f k' = true → is_dir f k = false →
  is_dir (<[k := File data]> f) k' = true.
Proof.
  intros Hk' Hk. unfold is_dir. rewrite lookup_insert_ne; [done|].
  intros ->. congruence.
Qed.

Lemma is_dir_delete_file (f : filesystem) k k' :
  is_dir f k' = true → is_dir f k = false → is_dir (delete k f) k' = true.
Proof.
  intros Hk' Hk. unfold is_dir. rewrite lookup_delete_ne; [done|].
  intros ->. congruence.
Qed.

(** [mkdirs] only adds entries. *)
Lemma mkdirs_lookup_Some name todo : ∀ here (f f' : filesystem) k n,
  mkdirs name here todo f = inr f' → f !! k = Some n → f' !! k = Some n.
Proof.
  induction todo as [|c rest IH]; intros here f f' k n; simpl;
    destruct (f !! here) as [[|w]|] eqn:Hhere; try done.
  - by intros [= <-].
  - destruct (f !! (here ++ [c])) eqn:Hnext; [by apply IH|].
    destruct w; [|done]. intros Hrun Hk. eapply IH; [done|].
    rewrite lookup_insert_ne; [done|]. intros <-. congruence.
Qed.

(** When [mkdirs] succeeds the whole path is a directory. *)
Lemma mkdirs_is_dir name todo : ∀ here (f f' : filesystem),
  mkdirs name here todo f = inr f' → is_dir f' (here ++ todo) = true.
Proof.
  induction todo as [|c rest IH]; intros here f f'; simpl;
    destruct (f !! here) as [[|w]|] eqn:Hhere; try done.
  - intros [= <-]. unfold is_dir. by rewrite app_nil_r, Hhere.
  - rewrite (cons_middle c here rest), app_assoc.
    destruct (f !! (here ++ [c])) eqn:Hnext; [by apply IH|].
    destruct w; [|done]. by apply IH.
Qed.

(** [mkdirs] touches nothing below the path it creates. *)
Lemma mkdirs_lookup_deeper name todo : ∀ here (f f' : filesystem) k,
  mkdirs name here todo f = inr f' →
  length (here ++ todo) < length k → f' !! k = f !! k.
Proof.
  induction todo as [|c rest IH]; intros here f f' k; simpl;
    destruct (f !! here) as [[|w]|] eqn:Hhere; try done.
  - by intros [= <-].
  - rewrite (cons_middle c here rest), app_assoc.
    destruct (f !! (here ++ [c])) eqn:Hnext; [by apply IH|].
    destruct w; [|done]. intros Hrun Hlen.
    rewrite (IH _ _ _ _ Hrun Hlen). apply lookup_insert_ne.
    intros <-. rewrite !length_app in Hlen. simpl in Hlen. lia.
Qed.

(** With every ancestor in place, [mkdirs] of an existing directory
    changes nothing. *)
Lemma mkdirs_existing name todo : ∀ here (f : filesystem),
  (∀ pre, pre `prefix_of` todo → is_dir f (here ++ pre) = true) →
  mkdirs name here todo f = inr f.
Proof.
  induction todo as [|c rest IH]; intros here f Hall; simpl.
  - specialize (Hall [] (prefix_nil _)). rewrite app_nil_r in Hall.
    unfold is_dir in Hall. by destruct (f !! here) as [[]|].
  - pose proof (Hall [] (prefix_nil _)) as Hd. rewrite app_nil_r in Hd.
    unfold is_dir in Hd. destruct (f !! here) as [[|w]|]; try done.
    pose proof (Hall [c] (prefix_cons c [] rest (prefix_nil _))) as Hc.
    unfold is_dir in Hc. destruct (f !! (here ++ [c])) as [[]|] eqn:Hnext; try done.
    apply IH. intros pre Hpre. rewrite <- app_assoc. apply Hall.
    by apply prefix_cons.
Qed.

Lemma prefix_snoc_inv {A} (pre k : list A) c :
  pre `prefix_of` k ++ [c] → pre = k ++ [c] ∨ pre `prefix_of` k.
Proof.
  intros [suf Hsuf]. destruct suf as [|x suf _] using rev_ind.
  - left. by rewrite app_nil_r in Hsuf.
  - right. rewrite app_assoc in Hsuf. apply app_inj_tail in Hsuf as [-> _].
    by exists suf.
Qed.

(** In a well-formed file system, what lies above a directory is a
    directory. *)
Lemma well_formed_ancestors (f : filesystem) k :
  well_formed f → is_dir f k = true → ∀ pre, pre `prefix_of` k → is_dir f pre = true.
Proof.
  intros [Hroot Hwf]. induction k as [|c k IH] using rev_ind; intros Hk pre Hpre.
  - by apply prefix_nil_inv in Hpre as ->.
  - apply prefix_snoc_inv in Hpre as [->|Hpre]; [done|].
    apply IH; [|done]. rewrite <- (removelast_last k c). apply Hwf.
    + unfold is_dir in Hk. by destruct (f !! (k ++ [c])).
    + by destruct k.
Qed.

End FSFacts.

(* ===================================================================== *)
(** * Facts about the effects *)
(* ===================================================================== *)

#[global] Instance keeps_dirs_preorder : PreOrder keeps_dirs.
Proof.
  split; unfold keeps_dirs; [done|].
  intros x y z [Hc1 H1] [Hc2 H2]. split; [congruence|]. auto.
Qed.

#[global] Instance quiet_preorder : PreOrder quiet.
Proof.
  split; unfold quiet.
  - intros x. split; [done|reflexivity].
  - intros x y z [Hc1 H1] [Hc2 H2]. split; [congruence|by etrans].
Qed.

Lemma quiet_keeps_dirs {A} (c : py A) : preserves quiet c → preserves keeps_dirs c.
Proof. intros H w. apply H. Qed.

Section Combinators.
Context {A B : Type}.

Lemma preserves_ret R `{!Reflexive R} (a : A) : preserves R (ret a).
Proof. intros w. simpl. reflexivity. Qed.

Lemma preserves_raise R `{!Reflexive R} e : preserves R (@raise A e).
Proof. intros w. simpl. reflexivity. Qed.

Lemma preserves_bind R `{!Transitive R} (c : py A) (k : A → py B) :
  preserves R c → (∀ a, preserves R (k a)) → preserves R (bind c k).
Proof.
  intros Hc Hk w. unfold bind. specialize (Hc w).
  destruct (c w) as [a w'|e w']; simpl in *; [|done].
  etrans; [exact Hc|]. apply Hk.
Qed.

Lemma preserves_try R `{!Transitive R} (c : py A) (h : exn → py A) :
  preserves R c → (∀ e, preserves R (h e)) → preserves R (try_except c h).
Proof.
  intros Hc Hh w. unfold try_except. specialize (Hc w).
  destruct (c w) as [a w'|e w']; simpl in *; [done|].
  destruct (is_Exception e); [|done]. etrans; [exact Hc|]. apply Hh.
Qed.

Lemma ignores_calls_ret (a : A) : ignores_calls (ret a).
Proof. done. Qed.

Lemma ignores_calls_raise e : ignores_calls (@raise A e).
Proof. done. Qed.

Lemma ignores_calls_bind (c : py A) (k : A → py B) :
  ignores_calls c → (∀ a, ignores_calls (k a)) → ignores_calls (bind c k).
Proof.
  intros Hc Hk cs w. unfold bind. rewrite Hc.
  destruct (c w) as [a w'|e w']; simpl; [apply Hk|done].
Qed.

Lemma safe_ret (a : A) : safe (ret a).
Proof. done. Qed.

Lemma safe_bind (c : py A) (k : A → py B) :
  safe c → (∀ a, safe (k a)) → safe (bind c k).
Proof.
  intros Hc Hk w. unfold bind. specialize (Hc w).
  destruct (c w) as [a w'|e w']; [apply Hk|done].
Qed.

Lemma total_ret (a : A) : total (ret a).
Proof. intros w. by exists a, w. Qed.

Lemma total_bind (c : py A) (k : A → py B) :
  total c → (∀ a, total (k a)) → total (bind c k).
Proof.
  intros Hc Hk w. unfold bind. destruct (Hc w) as (a & w' & ->). apply Hk.
Qed.

(** A handler that always returns makes the whole [try] return, as long
    as the body raises only what [except Exception] catches. *)
Lemma total_try (c : py A) (h : exn → py A) :
  safe c → (∀ e, total (h e)) → total (try_except c h).
Proof.
  intros Hc Hh w. unfold try_except. specialize (Hc w).
  destruct (c w) as [a w'|e w']; [by eauto|].
  rewrite Hc. apply Hh.
Qed.

Lemma total_safe (c : py A) : total c → safe c.
Proof. intros Hc w. by destruct (Hc w) as (a & w' & ->). Qed.

End Combinators.

(** A primitive is settled by running it: every branch ends in the same
    world, or in one that differs in the fields the goal does not read. *)
Ltac run_primitive :=
  let w := fresh "w" in
  intros w; simpl;
  repeat match goal with
         | |- context [match ?x with _ => _ end] =>
             lazymatch x with
             | context [match _ with _ => _ end] => fail
             | _ => destruct x eqn:?; simpl
             end
         end;
  try done.

(** Use the hypothesis that tells what the lookup in the goal finds. *)
Ltac rewrite_lookup :=
  match goal with
  | H : ?m !! ?k = _ |- context [?m !! ?k] => rewrite H
  end.

Section Primitives.

Lemma locate_set_calls cs w p : locate (set_calls cs w) p = locate w p.
Proof. reflexivity. Qed.

Lemma print_total s : total (print s).
Proof. intros w. by eexists _, _. Qed.

Lemma enter_total op : total (enter op).
Proof. intros w. by eexists _, _. Qed.

Lemma os_path_exists_total p : total (os_path_exists p).
Proof. intros w. by eexists _, _. Qed.

Lemma safe_input p : safe (input p).
Proof. unfold safe, input. run_primitive. Qed.

Lemma safe_datetime_now : safe datetime_now.
Proof. done. Qed.

Lemma safe_os_path_isdir p : safe (os_path_isdir p).
Proof. done. Qed.

Lemma safe_os_path_getsize p : safe (os_path_getsize p).
Proof. unfold safe, os_path_getsize. run_primitive. Qed.

Lemma safe_os_listdir p : safe (os_listdir p).
Proof. unfold safe, os_listdir. run_primitive. Qed.

Lemma safe_os_remove p : safe (os_remove p).
Proof. unfold safe, os_remove. run_primitive. Qed.

Lemma mkdirs_raises_Exception name todo : ∀ here f e,
  FS.mkdirs name here todo f = inl e → is_Exception e = true.
Proof.
  induction todo as [|c rest IH]; intros here f e; simpl;
    repeat case_match; try (by intros [= <-]); try done; by apply IH.
Qed.

Lemma safe_os_makedirs p : safe (os_makedirs p).
Proof.
  intros w. unfold os_makedirs. destruct (locate w p); [|done].
  destruct (FS.mkdirs _ _ _ _) eqn:H; [|done]. by eapply mkdirs_raises_Exception.
Qed.

Lemma safe_shutil_copyfile s d : safe (shutil_copyfile s d).
Proof. unfold safe, shutil_copyfile, copy_bytes. run_primitive. Qed.

Lemma safe_sqlite3_connect p : safe (sqlite3_connect p).
Proof. unfold safe, sqlite3_connect. run_primitive. Qed.

Lemma quiet_print s : preserves quiet (print s).
Proof. intros w. by repeat split. Qed.

Lemma quiet_input p : preserves quiet (input p).
Proof. intros w. unfold input. simpl. by destruct (stdin w); repeat split. Qed.

Lemma quiet_datetime_now : preserves quiet datetime_now.
Proof. intros w. by repeat split. Qed.

Lemma quiet_os_path_exists p : preserves quiet (os_path_exists p).
Proof. intros w. by repeat split. Qed.

Lemma quiet_os_path_isdir p : preserves quiet (os_path_isdir p).
Proof. intros w. by repeat split. Qed.

Lemma quiet_os_path_getsize p : preserves quiet (os_path_getsize p).
Proof.
  intros w. unfold os_path_getsize. by repeat case_match; repeat split.
Qed.

Lemma quiet_os_listdir p : preserves quiet (os_listdir p).
Proof. intros w. unfold os_listdir. by repeat case_match; repeat split. Qed.

Lemma quiet_os_remove p : preserves quiet (os_remove p).
Proof.
  intros w. unfold os_remove. repeat case_match; try by repeat split.
  simpl. repeat split; [done..|]. simpl. intros k' Hk'.
  apply FSFacts.is_dir_delete_file; [done|]. unfold FS.is_dir. by rewrite_lookup.
Qed.

Lemma quiet_os_makedirs p : preserves quiet (os_makedirs p).
Proof.
  intros w. unfold os_makedirs. destruct (locate w p); [|by repeat split].
  destruct (FS.mkdirs _ _ _ _) eqn:H; [by repeat split|].
  simpl. repeat split; [done..|]. simpl. intros k'. unfold FS.is_dir.
  destruct (fs w !! k') as [[|d]|] eqn:Hk'; try done. intros _.
  by rewrite (FSFacts.mkdirs_lookup_Some _ _ _ _ _ _ _ H Hk').
Qed.

Lemma quiet_shutil_copyfile s d : preserves quiet (shutil_copyfile s d).
Proof.
  intros w. unfold shutil_copyfile, copy_bytes. repeat case_match; try by repeat split.
  all: simpl; repeat split; [done..|]; simpl; intros k' Hk';
    apply FSFacts.is_dir_insert_file; [done|]; unfold FS.is_dir; by rewrite_lookup.
Qed.

Lemma quiet_sqlite3_connect p : preserves quiet (sqlite3_connect p).
Proof.
  intros w. unfold sqlite3_connect. repeat case_match; try by repeat split.
  simpl; repeat split; [done..|]; simpl; intros k' Hk'.
  apply FSFacts.is_dir_insert_file; [done|]; unfold FS.is_dir. by rewrite_lookup.
Qed.

Lemma ignores_calls_os_listdir p : ignores_calls (os_listdir p).
Proof.
  intros cs w. unfold os_listdir. simpl. rewrite locate_set_calls.
  by repeat case_match.
Qed.

Lemma ignores_calls_sqlite3_connect p : ignores_calls (sqlite3_connect p).
Proof.
  intros cs w. unfold sqlite3_connect. simpl. rewrite locate_set_calls.
  by repeat case_match.
Qed.

Context {engine : Sqlite}.

Lemma safe_read_database conn : safe (read_database conn).
Proof. unfold safe, read_database. run_primitive. Qed.

Lemma quiet_read_database conn : preserves quiet (read_database conn).
Proof. intros w. unfold read_database. by repeat case_match; repeat split. Qed.

Lemma ignores_calls_read_database conn : ignores_calls (read_database conn).
Proof. intros cs w. unfold read_database. simpl. by repeat case_match. Qed.

End Primitives.

Lemma safe_raise {A} e : is_Exception e = true → safe (@raise A e).
Proof. intros H w. exact H. Qed.

Create HintDb py discriminated.

#[global] Hint Resolve
  print_total enter_total os_path_exists_total
  safe_input safe_datetime_now safe_os_path_isdir safe_os_path_getsize
  safe_os_listdir safe_os_remove safe_os_makedirs safe_shutil_copyfile
  safe_sqlite3_connect safe_read_database
  quiet_print quiet_input quiet_datetime_now quiet_os_path_exists
  quiet_os_path_isdir quiet_os_path_getsize quiet_os_listdir quiet_os_remove
  quiet_os_makedirs quiet_shutil_copyfile quiet_sqlite3_connect
  quiet_read_database
  ignores_calls_os_listdir ignores_calls_sqlite3_connect
  ignores_calls_read_database : py.

(** Goals about a composite computation follow its structure. *)
Ltac compose :=
  repeat first
    [ progress intros
    | solve [eauto with py]
    | apply preserves_ret; apply _
    | apply preserves_raise; apply _
    | apply preserves_bind; [apply _| |]
    | apply preserves_try; [apply _| |]
    | apply ignores_calls_ret
    | apply ignores_calls_raise
    | apply ignores_calls_bind
    | apply safe_ret
    | apply safe_raise; reflexivity
    | apply safe_bind
    | apply total_ret
    | apply total_bind
    | apply total_try
    | solve [apply total_safe; eauto with py]
    | apply quiet_keeps_dirs
    | match goal with
      | |- context [if ?b then _ else _] => destruct b
      | |- context [match ?x with _ => _ end] => destruct x
      end ].

Section Composites.
Context {engine : Sqlite} (settings : Settings).

Lemma safe_select_count name tbl conn : safe (select_count name tbl conn).
Proof. unfold select_count. compose. Qed.

Lemma quiet_select_count name tbl conn : preserves quiet (select_count name tbl conn).
Proof. unfold select_count. compose. Qed.

Lemma safe_select_column col name tbl conn : safe (select_column col name tbl conn).
Proof. unfold select_column. compose. Qed.

Lemma quiet_select_column col name tbl conn :
  preserves quiet (select_column col name tbl conn).
Proof. unfold select_column. compose. Qed.

Lemma ignores_calls_select_column col name tbl conn :
  ignores_calls (select_column col name tbl conn).
Proof. unfold select_column. compose. Qed.

Lemma safe_pragma_integrity_check conn : safe (pragma_integrity_check conn).
Proof. unfold pragma_integrity_check. compose. Qed.

Lemma quiet_pragma_integrity_check conn : preserves quiet (pragma_integrity_check conn).
Proof. unfold pragma_integrity_check. compose. Qed.

Lemma safe_shutil_copy2 s d : safe (shutil_copy2 s d).
Proof. unfold shutil_copy2. compose. Qed.

Lemma quiet_shutil_copy2 s d : preserves quiet (shutil_copy2 s d).
Proof. unfold shutil_copy2. compose. Qed.

Lemma safe_orphaned_files dir names refs : safe (orphaned_files dir names refs).
Proof. done. Qed.

Lemma quiet_orphaned_files dir names refs : preserves quiet (orphaned_files dir names refs).
Proof. intros w. by repeat split. Qed.

Lemma ignores_calls_orphaned_files dir names refs :
  ignores_calls (orphaned_files dir names refs).
Proof. done. Qed.

Hint Resolve safe_select_count quiet_select_count safe_select_column
  quiet_select_column ignores_calls_select_column safe_pragma_integrity_check
  quiet_pragma_integrity_check safe_shutil_copy2 quiet_shutil_copy2
  safe_orphaned_files quiet_orphaned_files ignores_calls_orphaned_files : py.

Lemma safe_find_orphans : safe (find_orphans settings).
Proof. unfold find_orphans. compose. Qed.

Lemma quiet_find_orphans : preserves quiet (find_orphans settings).
Proof. unfold find_orphans. compose. Qed.

Lemma ignores_calls_find_orphans : ignores_calls (find_orphans settings).
Proof. unfold find_orphans. compose. Qed.

(** The deletion loop catches what [os.remove] raises: it always
    returns. *)
Lemma total_delete_files paths : ∀ n, total (delete_files paths n).
Proof.
  induction paths as [|p rest IH]; intros n; simpl; compose.
Qed.

Lemma quiet_delete_files paths : ∀ n, preserves quiet (delete_files paths n).
Proof.
  induction paths as [|p rest IH]; intros n; simpl; compose.
Qed.

Hint Resolve safe_find_orphans quiet_find_orphans total_delete_files
  quiet_delete_files : py.

Lemma total_check_database : total (check_database settings).
Proof. unfold check_database. compose. Qed.

Lemma total_backup_database : total (backup_database settings).
Proof. unfold backup_database. compose. Qed.

Lemma total_clean_orphaned_files : total (clean_orphaned_files settings).
Proof. unfold clean_orphaned_files. compose. Qed.

End Composites.

#[global] Hint Resolve safe_select_count quiet_select_count safe_select_column
  quiet_select_column ignores_calls_select_column safe_pragma_integrity_check
  quiet_pragma_integrity_check safe_shutil_copy2 quiet_shutil_copy2
  safe_orphaned_files quiet_orphaned_files ignores_calls_orphaned_files
  safe_find_orphans quiet_find_orphans total_delete_files quiet_delete_files : py.

Section Operations.
Context {engine : Sqlite} (settings : Settings).

Lemma exists_stat w p : exists_ w p = true ↔ is_Some (stat w p).
Proof. unfold exists_. apply bool_decide_eq_true. Qed.

(** Past the existence check, the queries and the listings change
    nothing: [sqlite3.connect] finds a file to open. *)
Lemma find_orphans_reads_only w :
  exists_ w (db_path settings) = true → final (find_orphans settings w) = w.
Proof.
  intros [n Hn]%exists_stat. unfold stat in Hn.
  unfold find_orphans, bind, sqlite3_connect.
  destruct (locate w (db_path settings)) as [k|]; [|done]. simpl in Hn. rewrite Hn.
  destruct n; [|done].
  unfold select_column, bind, read_database, os_listdir, orphaned_files, ret, raise.
  repeat (case_match; simplify_eq); done.
Qed.

Lemma find_orphans_Returns w found w' :
  exists_ w (db_path settings) = true →
  find_orphans settings w = Returns found w' → w' = w.
Proof.
  intros Hdb Hrun. pose proof (find_orphans_reads_only w Hdb) as H.
  by rewrite Hrun in H.
Qed.

Lemma print_twice {A} a b (k : py A) w :
  (print a ;; print b ;; k) w = k (set_stdout (stdout w ++ [a; b]) w).
Proof.
  unfold bind, print. f_equal. unfold set_stdout. simpl. by rewrite <- app_assoc.
Qed.

(** An operation that finds no database only says so. *)
Lemma missing_database w :
  exists_ w (db_path settings) = false →
  check_database settings w = Returns false (reported OpCheck [not_found settings] w) ∧
  backup_database settings w = Returns false (reported OpBackup [not_found settings] w) ∧
  clean_orphaned_files settings w = Returns false (reported OpClean [not_found settings] w).
Proof.
  intros H. unfold check_database, backup_database, clean_orphaned_files.
  unfold bind, enter, os_path_exists.
  change (exists_ (set_calls _ w) ?p) with (exists_ w p). by rewrite H.
Qed.

(** The run of [clean_orphaned_files] up to the end of the scan. *)
Lemma clean_orphaned_files_scanned w upload_files pdf_files :
  exists_ w (db_path settings) = true →
  find_orphans settings w = Returns (upload_files, pdf_files) w →
  clean_orphaned_files settings w =
    let w1 := reported OpClean [found_uploads (length upload_files);
                               found_pdfs (length pdf_files)] w in
    if bool_decide (upload_files = []) && bool_decide (pdf_files = []) then
      Returns true (set_stdout (stdout w1 ++ ["No orphaned files to clean up"]) w1)
    else
      try_except
        (answer <- input confirm_prompt ;;
         if negb (Str.eqb (Str.lower answer) "y") then
           print "Cleanup aborted" ;;
           ret false
         else
           deleted_count <- delete_files (upload_files ++ pdf_files) 0 ;;
           print (deleted_line deleted_count) ;;
           ret true)
        (λ e, print (cleaning_error e) ;;
              ret false) w1.
Proof.
  intros Hdb Hrun. unfold clean_orphaned_files.
  unfold bind at 1, enter. unfold bind at 1, os_path_exists.
  change (exists_ (set_calls _ w) ?p) with (exists_ w p). rewrite Hdb.
  cbn [negb]. unfold try_except at 1. unfold bind at 1.
  rewrite ignores_calls_find_orphans, Hrun. cbn [map_world fst snd].
  rewrite print_twice. fold (reported OpClean [found_uploads (length upload_files);
                               found_pdfs (length pdf_files)] w).
  cbv zeta. destruct (bool_decide _ && bool_decide _); [done|].
  reflexivity.
Qed.

(** What the scan computes, once the database can be read. *)
Lemma find_orphans_scan w db audio files :
  current_database settings w = Some db →
  meetings db = Some (Column audio) → pdfs db = Some (Column files) →
  find_orphans settings w =
    (upload_names <- os_listdir (UPLOAD_DIR settings) ;;
     pdf_names <- os_listdir (PDF_DIR settings) ;;
     (λ w, Returns (orphans w (UPLOAD_DIR settings) upload_names (reference_paths audio),
                    orphans w (PDF_DIR settings) pdf_names (reference_paths files)) w)) w.
Proof.
  unfold current_database, read_bytes, stat. intros Hdb Hm Hp.
  unfold find_orphans, bind at 1, sqlite3_connect.
  destruct (locate w (db_path settings)) as [k|]; [|done]. simpl in Hdb.
  destruct (fs w !! k) as [[data|]|] eqn:Hk; try done. simpl in Hdb.
  unfold bind at 1, select_column at 1, bind at 1, read_database.
  rewrite Hk, Hdb, Hm. unfold ret at 1.
  unfold bind at 1, select_column at 1, bind at 1, read_database.
  rewrite Hk, Hdb, Hp. unfold ret at 1.
  unfold bind, os_listdir, orphaned_files, ret.
  by repeat case_match; simplify_eq.
Qed.

(** Conversely, a scan that returns has read a database and listed both
    directories. *)
Lemma find_orphans_inv w upload_files pdf_files w' :
  exists_ w (db_path settings) = true →
  find_orphans settings w = Returns (upload_files, pdf_files) w' →
  ∃ db audio files upload_names pdf_names,
    current_database settings w = Some db ∧
    meetings db = Some (Column audio) ∧ pdfs db = Some (Column files) ∧
    os_listdir (UPLOAD_DIR settings) w = Returns upload_names w ∧
    os_listdir (PDF_DIR settings) w = Returns pdf_names w ∧
    upload_files = orphans w (UPLOAD_DIR settings) upload_names (reference_paths audio) ∧
    pdf_files = orphans w (PDF_DIR settings) pdf_names (reference_paths files).
Proof.
  intros [n Hn]%exists_stat. unfold current_database, read_bytes. unfold stat in *.
  unfold find_orphans, bind at 1, sqlite3_connect.
  destruct (locate w (db_path settings)) as [k|]; [|done]. simpl in *.
  rewrite Hn. destruct n as [data|]; [|done].
  unfold bind at 1, select_column at 1, bind at 1, read_database. rewrite Hn.
  destruct (sqlite_decode data) as [db|] eqn:Hdb; [|done].
  unfold raise, ret. destruct (meetings db) as [[|audio]|] eqn:Hm; try done.
  unfold bind at 1, select_column at 1, bind at 1, read_database. rewrite Hn, Hdb.
  unfold raise, ret. destruct (pdfs db) as [[|files]|] eqn:Hp; try done.
  unfold bind at 1.
  destruct (os_listdir (UPLOAD_DIR settings) w) as [upload_names w1|] eqn:Hu; [|done].
  assert (w1 = w) as ->.
  { unfold os_listdir in Hu. by repeat case_match; simplify_eq. }
  unfold bind at 1, orphaned_files at 1. unfold bind at 1.
  destruct (os_listdir (PDF_DIR settings) w) as [pdf_names w1|] eqn:Hl; [|done].
  assert (w1 = w) as ->.
  { unfold os_listdir in Hl. by repeat case_match; simplify_eq. }
  unfold bind, orphaned_files, ret. intros [= <- <- <-].
  by exists db, audio, files, upload_names, pdf_names.
Qed.

Lemma str_eq_value_true p v : str_eq_value p v = true ↔ v = SqlText p.
Proof.
  destruct v; simpl; try (split; [done|by intros [=]]).
  unfold Str.eqb. rewrite bool_decide_eq_true. split; [by intros ->|by intros [= ->]].
Qed.

Lemma str_in_true p values : str_in p values = true ↔ SqlText p ∈ values.
Proof.
  unfold str_in. rewrite existsb_exists. split.
  - intros (v & Hv & ->%str_eq_value_true). by apply list_elem_of_In.
  - intros Hp. exists (SqlText p). split; [by apply list_elem_of_In|].
    by apply str_eq_value_true.
Qed.

Lemma elem_of_reference_paths v column :
  v ∈ reference_paths column ↔ v ∈ column ∧ truthy v = true.
Proof. unfold reference_paths. by rewrite list_elem_of_filter, (comm and). Qed.

Lemma isfile_not_empty w p : isfile w p = true → p ≠ "".
Proof. intros H ->. by unfold isfile, stat, locate, Path.resolve in H. Qed.

Lemma elem_of_orphans w dir names refs p :
  p ∈ orphans w dir names refs ↔
    (∃ name, name ∈ names ∧ p = Path.join dir name) ∧
    isfile w p = true ∧ SqlText p ∉ refs.
Proof.
  unfold orphans. rewrite list_elem_of_filter, list_elem_of_fmap.
  rewrite andb_true_iff, negb_true_iff, <- not_true_iff_false, str_in_true.
  split.
  - intros [[? ?] (name & -> & ?)]. eauto.
  - intros [(name & ? & ->) [? ?]]. eauto.
Qed.

Lemma covered_iff w p column :
  isfile w p = true → SqlText p ∈ reference_paths column ↔ SqlText p ∈ column.
Proof.
  intros Hp%isfile_not_empty. rewrite elem_of_reference_paths. simpl.
  unfold Str.eqb. rewrite (bool_decide_eq_false_2 _ Hp). simpl. tauto.
Qed.

(** C1. For every world in which [clean_orphaned_files] gets past its
    queries and listings, the orphaned uploads are exactly the joined
    paths of the names listed in [UPLOAD_DIR] that are regular files
    and are not, as strings, among the [audio_path] values of
    [meetings]; the orphaned PDFs are the same for [PDF_DIR] and the
    [file_path] values of [pdfs].  Each list is compared with its own
    column only. *)
Theorem orphans_are_set_differences w upload_files pdf_files w' :
  exists_ w (db_path settings) = true →
  find_orphans settings w = Returns (upload_files, pdf_files) w' →
  ∃ db audio files upload_names pdf_names,
    current_database settings w = Some db ∧
    meetings db = Some (Column audio) ∧ pdfs db = Some (Column files) ∧
    os_listdir (UPLOAD_DIR settings) w = Returns upload_names w ∧
    os_listdir (PDF_DIR settings) w = Returns pdf_names w ∧
    (∀ p, p ∈ upload_files ↔
          (∃ name, name ∈ upload_names ∧ p = Path.join (UPLOAD_DIR settings) name) ∧
          isfile w p = true ∧ SqlText p ∉ audio) ∧
    (∀ p, p ∈ pdf_files ↔
          (∃ name, name ∈ pdf_names ∧ p = Path.join (PDF_DIR settings) name) ∧
          isfile w p = true ∧ SqlText p ∉ files).
Proof.
  intros Hdb Hrun.
  destruct (find_orphans_inv _ _ _ _ Hdb Hrun)
    as (db & audio & files & upload_names & pdf_names & ? & ? & ? & ? & ? & -> & ->).
  exists db, audio, files, upload_names, pdf_names. split_and!; try done.
  all: intros p; rewrite elem_of_orphans.
  all: split; intros (Hn & Hf & Hr); split_and!; try done.
  all: by rewrite covered_iff in * by done.
Qed.

(** C2. Null and empty path values never enter the reference paths:
    a row whose [audio_path] (or [file_path]) is NULL or the empty
    string can be added to or removed from the table without changing
    the reference paths, hence without changing which files are
    classified as orphaned. *)
Theorem null_paths_cover_nothing (before after : list sql_value) :
  (SqlNull ∉ reference_paths (before ++ after)) ∧
  (SqlText "" ∉ reference_paths (before ++ after)) ∧
  reference_paths (before ++ SqlNull :: after) = reference_paths (before ++ after) ∧
  reference_paths (before ++ SqlText "" :: after) = reference_paths (before ++ after) ∧
  ∀ w dir names,
    orphans w dir names (reference_paths (before ++ SqlNull :: after)) =
      orphans w dir names (reference_paths (before ++ after)) ∧
    orphans w dir names (reference_paths (before ++ SqlText "" :: after)) =
      orphans w dir names (reference_paths (before ++ after)).
Proof.
  assert (reference_paths (before ++ SqlNull :: after) = reference_paths (before ++ after))
    as Hnull by (unfold reference_paths; by rewrite !filter_app, filter_cons_False).
  assert (reference_paths (before ++ SqlText "" :: after) = reference_paths (before ++ after))
    as Hempty by (unfold reference_paths; by rewrite !filter_app, filter_cons_False).
  split_and!; try done.
  - by intros [_ ?]%elem_of_reference_paths.
  - by intros [_ ?]%elem_of_reference_paths.
  - intros w dir names. by rewrite Hnull, Hempty.
Qed.

(** C6. When the scan finds no orphan in either directory, the operation
    reports success after three lines of output; it reads nothing from
    standard input, writes no prompt and leaves the file system as it
    was. *)
Theorem nothing_to_clean w w' :
  exists_ w (db_path settings) = true →
  find_orphans settings w = Returns ([], []) w' →
  let w'' := reported OpClean [found_uploads 0; found_pdfs 0;
                               "No orphaned files to clean up"] w in
  clean_orphaned_files settings w = Returns true w'' ∧
  fs w'' = fs w ∧ stdin w'' = stdin w ∧ confirm_prompt ∉ drop (length (stdout w)) (stdout w'').
Proof.
  intros Hdb Hrun. pose proof (find_orphans_Returns _ _ _ Hdb Hrun) as ->.
  rewrite (clean_orphaned_files_scanned _ _ _ Hdb Hrun). simpl.
  split_and!; try done.
  - f_equal. unfold reported, set_stdout. simpl. by rewrite <- app_assoc.
  - rewrite drop_app_length. compute_done.
Qed.

Lemma some_orphan (upload_files pdf_files : list string) :
  upload_files ++ pdf_files ≠ [] →
  bool_decide (upload_files = []) && bool_decide (pdf_files = []) = false.
Proof.
  intros H. apply andb_false_iff.
  destruct upload_files; [right|left]; by apply bool_decide_eq_false_2.
Qed.

(** C4. When the scan found at least one orphan and the answer of the
    operator, lower-cased, is not "y", the operation prints the line
    "Cleanup aborted" and returns failure; the file system is left as
    it was. *)
Theorem declined_cleanup w upload_files pdf_files w' answer rest :
  exists_ w (db_path settings) = true →
  find_orphans settings w = Returns (upload_files, pdf_files) w' →
  upload_files ++ pdf_files ≠ [] →
  stdin w = answer :: rest →
  Str.lower answer ≠ "y" →
  let w'' := set_stdin rest
               (reported OpClean [found_uploads (length upload_files);
                                  found_pdfs (length pdf_files);
                                  confirm_prompt; "Cleanup aborted"] w) in
  clean_orphaned_files settings w = Returns false w'' ∧ fs w'' = fs w.
Proof.
  intros Hdb Hrun Hsome Hin Hno. pose proof (find_orphans_Returns _ _ _ Hdb Hrun) as ->.
  rewrite (clean_orphaned_files_scanned _ _ _ Hdb Hrun). simpl.
  rewrite (some_orphan _ _ Hsome). split; [|done].
  unfold try_except, bind, input. simpl. rewrite Hin.
  unfold Str.eqb. rewrite (bool_decide_eq_false_2 _ Hno). simpl.
  f_equal. unfold reported, set_stdout, set_stdin. simpl. by rewrite <- !app_assoc.
Qed.

(** C10. When the run reaches the listings (the database holds both
    columns) and listing [UPLOAD_DIR] raises, or listing [PDF_DIR]
    raises after it, the handler of the operation catches the error:
    the operation prints it and returns failure, with the file system
    as it was, since no deletion precedes the listings. *)
Theorem listing_failure w db audio files e :
  exists_ w (db_path settings) = true →
  current_database settings w = Some db →
  meetings db = Some (Column audio) → pdfs db = Some (Column files) →
  (os_listdir (UPLOAD_DIR settings) w = Raises e w ∨
   (∃ upload_names, os_listdir (UPLOAD_DIR settings) w = Returns upload_names w) ∧
   os_listdir (PDF_DIR settings) w = Raises e w) →
  let w' := reported OpClean [cleaning_error e] w in
  clean_orphaned_files settings w = Returns false w' ∧
  fs w' = fs w ∧ stdin w' = stdin w.
Proof.
  intros Hfound Hdb Hm Hp Hlist. simpl. split; [|done].
  assert (find_orphans settings w = Raises e w) as Hrun.
  { rewrite (find_orphans_scan _ _ _ _ Hdb Hm Hp). unfold bind.
    destruct Hlist as [->|[[names ->] ->]]; done. }
  assert (is_Exception e = true) as He.
  { pose proof (safe_find_orphans settings w) as Hs. by rewrite Hrun in Hs. }
  unfold clean_orphaned_files.
  unfold bind at 1, enter. unfold bind at 1, os_path_exists.
  change (exists_ (set_calls _ w) ?p) with (exists_ w p). rewrite Hfound.
  cbn [negb]. unfold try_except at 1. unfold bind at 1.
  rewrite ignores_calls_find_orphans, Hrun. cbn [map_world]. by rewrite He.
Qed.

(** [os.remove] looks at the file system and the working directory
    only. *)
Lemma os_remove_frame p w w2 :
  fs w2 = fs w → cwd w2 = cwd w →
  result (os_remove p w2) = result (os_remove p w) ∧
  raised (os_remove p w2) = raised (os_remove p w).
Proof.
  intros Hfs Hcwd. unfold os_remove, locate. rewrite Hfs, Hcwd.
  by repeat case_match.
Qed.

(** [os.remove] returns on the paths that are removable, and raises on
    the others without touching anything. *)
Lemma os_remove_cases p w :
  (∃ k, removable w p k ∧ os_remove p w = Returns tt (set_fs (delete k (fs w)) w)) ∨
  (∃ e, os_remove p w = Raises e w).
Proof.
  unfold os_remove, removable, FS.is_file.
  destruct (locate w p) as [k|]; [|right; by eexists].
  destruct (fs w !! k) as [[data|]|] eqn:Hk; [|right; by eexists..].
  destruct (FS.dir_writable _ _) eqn:Hw; [left|right; by eexists].
  exists k. by rewrite Hk.
Qed.

Lemma result_os_remove p w :
  result (os_remove p w) = Some tt ↔ ∃ k, removable w p k.
Proof.
  split.
  - destruct (os_remove_cases p w) as [(k & Hk & _)|(e & ->)]; [by exists k|done].
  - intros (k & Hloc & Hfile & Hdir). unfold os_remove, FS.is_file in *.
    rewrite Hloc. destruct (fs w !! k) as [[data|]|]; try done. by rewrite Hdir.
Qed.

Lemma returned_or_raised {A} (o : outcome A) a e : result o = Some a → raised o = Some e → False.
Proof. by destruct o. Qed.

(** [os.remove] once a removable file at [k0] is gone: a path to [k0]
    finds nothing there, and the other paths fare as before. *)
Lemma os_remove_after_delete p w k0 w2 :
  FS.is_file (fs w) k0 = true →
  fs w2 = delete k0 (fs w) → cwd w2 = cwd w →
  (locate w p = Some k0 ∧ raised (os_remove p w2) = Some (FileNotFoundError p)) ∨
  (locate w p ≠ Some k0 ∧
   result (os_remove p w2) = result (os_remove p w) ∧
   raised (os_remove p w2) = raised (os_remove p w)).
Proof.
  intros Hfile Hfs Hcwd. unfold os_remove, locate. rewrite Hfs, Hcwd.
  destruct (Path.resolve (cwd w) p) as [k|]; [|by right].
  destruct (decide (k = k0)) as [->|Hne].
  { left. by rewrite lookup_delete_eq. }
  right. split; [congruence|]. rewrite lookup_delete_ne by done.
  destruct (fs w !! k) as [[data|]|]; try done.
  assert (FS.dir_writable (delete k0 (fs w)) (removelast k) =
          FS.dir_writable (fs w) (removelast k)) as ->; [|by destruct (FS.dir_writable _ _)].
  unfold FS.dir_writable, FS.is_file in *.
  destruct (decide (removelast k = k0)) as [->|Hne'].
  - rewrite lookup_delete_eq. by destruct (fs w !! k0) as [[]|].
  - by rewrite lookup_delete_ne.
Qed.

(** One turn of the deletion loop: the file is removed and counted, or
    the error is printed with its path. *)
Lemma delete_one file_path n w :
  let attempt := try_except (os_remove file_path ;; ret (n + 1))
                   (λ e, print (delete_failure file_path e) ;; ret n) in
  (∃ k, removable w file_path k ∧
        attempt w = Returns (n + 1) (set_fs (delete k (fs w)) w)) ∨
  (∃ e, os_remove file_path w = Raises e w ∧
        attempt w = Returns n (set_stdout (stdout w ++ [delete_failure file_path e]) w)).
Proof.
  simpl. unfold try_except, bind.
  destruct (os_remove_cases file_path w) as [(k & Hk & Hrun)|(e & Hrun)]; rewrite Hrun.
  - left. by exists k.
  - right. exists e. split; [done|].
    pose proof (safe_os_remove file_path w) as Hs. rewrite Hrun in Hs. by rewrite Hs.
Qed.

(** The deletion loop.  It always returns, with the number [m] of files
    it removed added to the counter: the file system loses exactly [m]
    entries and nothing is added.  Every path is attempted: one that
    [os.remove] accepts is gone afterwards, one that [os.remove] refuses
    has its error printed on a line naming it.  Nothing else is printed;
    a line can also stand for a path that was removable when the loop
    started and was removed under another name before its turn. *)
Lemma delete_files_spec paths : ∀ n w,
  ∃ m w' log,
    delete_files paths n w = Returns (n + m) w' ∧
    stdout w' = stdout w ++ log ∧ stdin w' = stdin w ∧ cwd w' = cwd w ∧
    calls w' = calls w ∧
    length log + m = length paths ∧
    fs w' ⊆ fs w ∧ size (fs w) = size (fs w') + m ∧
    (∀ p, p ∈ paths → result (os_remove p w) = Some tt → stat w' p = None) ∧
    (∀ p e, p ∈ paths → raised (os_remove p w) = Some e → delete_failure p e ∈ log) ∧
    (∀ l, l ∈ log → ∃ p e, p ∈ paths ∧ l = delete_failure p e ∧
          (raised (os_remove p w) = Some e ∨
           (e = FileNotFoundError p ∧ result (os_remove p w) = Some tt))) ∧
    (∀ k, is_Some (fs w !! k) → fs w' !! k = None →
          ∃ p, p ∈ paths ∧ locate w p = Some k ∧ result (os_remove p w) = Some tt).
Proof.
  induction paths as [|p rest IH]; intros n w.
  - exists 0, w, []. simpl. unfold ret. rewrite Nat.add_0_r, app_nil_r.
    split_and!; try done.
    + intros q Hq. by apply elem_of_nil in Hq.
    + intros q e Hq. by apply elem_of_nil in Hq.
    + intros l Hl. by apply elem_of_nil in Hl.
    + intros k [x Hx] Hn. congruence.
  - simpl. unfold bind at 1.
    destruct (delete_one p n w) as [(k & Hk & ->)|(e & Hfail & ->)].
    + set (w2 := set_fs (delete k (fs w)) w).
      destruct (IH (n + 1) w2)
        as (m & w' & log & -> & Hout & Hin & Hcwd & Hcalls & Hlen & Hsub & Hsize
            & Hgone & Hlogged & Hlog & Hlost).
      pose proof Hk as (Hloc & Hfile & Hdir).
      assert (result (os_remove p w) = Some tt) as Hp by (apply result_os_remove; by exists k).
      assert (is_Some (fs w !! k)) as [x Hx].
      { unfold FS.is_file in Hfile. destruct (fs w !! k); [by eexists|done]. }
      assert (∀ q, locate w q = Some k → result (os_remove q w) = Some tt) as Hsame.
      { intros q Hq. apply result_os_remove. by exists k. }
      exists (S m), w', log. simpl in *. split_and!; try done.
      * f_equal. lia.
      * lia.
      * etrans; [exact Hsub|]. apply delete_subseteq.
      * rewrite <- (insert_delete_id (fs w) k x Hx) at 1.
        rewrite map_size_insert_None by apply lookup_delete_eq. lia.
      * intros q Hq Hres.
        destruct (os_remove_after_delete q w k w2 Hfile eq_refl eq_refl)
          as [[Hqk _]|(Hqk & Hres2 & _)].
        { unfold stat, locate in *. rewrite Hcwd. simpl. rewrite Hqk. simpl.
          eapply lookup_weaken_None; [|exact Hsub]. apply lookup_delete_eq. }
        apply Hgone; [|congruence].
        apply elem_of_cons in Hq as [->|Hq]; [done|done].
      * intros q e Hq Hraised.
        destruct (os_remove_after_delete q w k w2 Hfile eq_refl eq_refl)
          as [[Hqk _]|(Hqk & _ & Hraised2)].
        { destruct (returned_or_raised _ _ _ (Hsame q Hqk) Hraised). }
        apply Hlogged; [|congruence].
        apply elem_of_cons in Hq as [->|Hq]; [done|done].
      * intros l Hl. destruct (Hlog l Hl) as (q & e & Hq & -> & Hwhy).
        exists q, e. split; [by right|]. split; [done|].
        destruct (os_remove_after_delete q w k w2 Hfile eq_refl eq_refl)
          as [[Hqk Hnow]|(Hqk & Hres2 & Hraised2)].
        { right. destruct Hwhy as [Hr|[_ Hr]].
          - split; [congruence|by apply Hsame].
          - destruct (returned_or_raised _ _ _ Hr Hnow). }
        destruct Hwhy as [Hr|[-> Hr]]; [left; congruence|right].
        split; [done|congruence].
      * intros k' Hk' Hnone. destruct (decide (k' = k)) as [->|Hne].
        { exists p. split_and!; [by left|done|done]. }
        destruct (Hlost k') as (q & Hq & Hqk & Hres); [by rewrite lookup_delete_ne|done|].
        exists q. split_and!; [by right|done|].
        destruct (os_remove_after_delete q w k w2 Hfile eq_refl eq_refl)
          as [[Hqk' _]|(_ & Hres2 & _)]; [|congruence].
        unfold locate in *. simpl in *. congruence.
    + set (w2 := set_stdout (stdout w ++ [delete_failure p e]) w).
      destruct (IH n w2)
        as (m & w' & log & -> & Hout & Hin & Hcwd & Hcalls & Hlen & Hsub & Hsize
            & Hgone & Hlogged & Hlog & Hlost).
      assert (∀ q, result (os_remove q w2) = result (os_remove q w) ∧
                   raised (os_remove q w2) = raised (os_remove q w)) as Hframe
        by (intros q; by apply os_remove_frame).
      assert (raised (os_remove p w) = Some e) as Hp by (by rewrite Hfail).
      exists m, w', (delete_failure p e :: log). simpl in *. split_and!; try done.
      * by rewrite Hout, <- app_assoc.
      * lia.
      * intros q Hq Hres. apply elem_of_cons in Hq as [->|Hq].
        { destruct (returned_or_raised _ _ _ Hres Hp). }
        apply Hgone; [done|]. by rewrite (proj1 (Hframe q)).
      * intros q e' Hq Hraised. apply elem_of_cons in Hq as [->|Hq].
        { assert (e' = e) as -> by congruence. by left. }
        right. apply Hlogged; [done|]. by rewrite (proj2 (Hframe q)).
      * intros l [->|Hl]%elem_of_cons.
        { exists p, e. split_and!; [by left|done|by left]. }
        destruct (Hlog l Hl) as (q & e' & Hq & -> & Hwhy).
        exists q, e'. split_and!; [by right|done|].
        by rewrite <- (proj1 (Hframe q)), <- (proj2 (Hframe q)).
      * intros k' Hk' Hnone. destruct (Hlost k' Hk' Hnone) as (q & Hq & Hqk & Hres).
        exists q. split_and!; [by right|done|]. by rewrite <- (proj1 (Hframe q)).
Qed.

(** A path that [os.remove] refused is afterwards what it was. *)
Lemma refused_path_kept w w' (paths : list string) p e :
  cwd w' = cwd w → fs w' ⊆ fs w →
  (∀ k, is_Some (fs w !! k) → fs w' !! k = None →
        ∃ q, q ∈ paths ∧ locate w q = Some k ∧ result (os_remove q w) = Some tt) →
  raised (os_remove p w) = Some e → stat w' p = stat w p.
Proof.
  intros Hcwd Hsub Hlost Hraised. unfold stat, locate. rewrite Hcwd.
  destruct (Path.resolve (cwd w) p) as [k|] eqn:Hk; [|done]. simpl.
  destruct (fs w !! k) as [n|] eqn:Hn.
  - destruct (fs w' !! k) as [n'|] eqn:Hn'.
    + pose proof (lookup_weaken _ _ _ _ Hn' Hsub). congruence.
    + destruct (Hlost k) as (q & _ & Hqk & Hres); [by eexists|done|].
      apply result_os_remove in Hres as (k' & Hloc & Hfile & Hdir).
      assert (k' = k) as -> by congruence.
      assert (result (os_remove p w) = Some tt) as Hres.
      { apply result_os_remove. by exists k. }
      destruct (returned_or_raised _ _ _ Hres Hraised).
  - by eapply lookup_weaken_None.
Qed.

(** A confirmed run: the scan found something, the operator answered
    "y" or "Y", and the loop ran over the orphaned paths. *)
Lemma clean_orphaned_files_confirmed w upload_files pdf_files w' answer rest :
  exists_ w (db_path settings) = true →
  find_orphans settings w = Returns (upload_files, pdf_files) w' →
  upload_files ++ pdf_files ≠ [] →
  stdin w = answer :: rest →
  Str.lower answer = "y" →
  ∃ m w1 log,
    clean_orphaned_files settings w =
      Returns true (set_stdout (stdout w1 ++ [deleted_line m]) w1) ∧
    stdout w1 = stdout w ++ [found_uploads (length upload_files);
                             found_pdfs (length pdf_files); confirm_prompt] ++ log ∧
    stdin w1 = rest ∧ cwd w1 = cwd w ∧
    length log + m = length (upload_files ++ pdf_files) ∧
    fs w1 ⊆ fs w ∧ size (fs w) = size (fs w1) + m ∧
    (∀ p, p ∈ upload_files ++ pdf_files →
          result (os_remove p w) = Some tt → exists_ w1 p = false) ∧
    (∀ p e, p ∈ upload_files ++ pdf_files →
          raised (os_remove p w) = Some e →
          delete_failure p e ∈ log ∧ stat w1 p = stat w p) ∧
    (∀ l, l ∈ log → ∃ p e, p ∈ upload_files ++ pdf_files ∧ l = delete_failure p e ∧
          (raised (os_remove p w) = Some e ∨
           (e = FileNotFoundError p ∧ result (os_remove p w) = Some tt))) ∧
    (∀ k, is_Some (fs w !! k) → fs w1 !! k = None →
          ∃ p, p ∈ upload_files ++ pdf_files ∧ locate w p = Some k ∧
               result (os_remove p w) = Some tt).
Proof.
  intros Hdb Hrun Hsome Hin Hyes. pose proof (find_orphans_Returns _ _ _ Hdb Hrun) as ->.
  rewrite (clean_orphaned_files_scanned _ _ _ Hdb Hrun). cbv zeta.
  rewrite (some_orphan _ _ Hsome).
  unfold try_except, bind at 1, input. cbn [stdin set_stdout reported set_calls].
  rewrite Hin. unfold Str.eqb. rewrite (bool_decide_eq_true_2 _ Hyes). cbn [negb].
  unfold bind at 1.
  match goal with
  | |- context [delete_files ?paths 0 ?w2] =>
      destruct (delete_files_spec paths 0 w2)
        as (m & w1 & log & -> & Hout & Hin1 & Hcwd & _ & Hlen & Hsub & Hsize
            & Hgone & Hlogged & Hlog & Hlost);
      pose proof (λ q, os_remove_frame q w w2 eq_refl eq_refl) as Hframe
  end.
  simpl in *. exists m, w1, log.
  assert (∀ k, is_Some (fs w !! k) → fs w1 !! k = None →
            ∃ p, p ∈ upload_files ++ pdf_files ∧ locate w p = Some k ∧
                 result (os_remove p w) = Some tt) as Hlost'.
  { intros k Hk Hnone. destruct (Hlost k Hk Hnone) as (q & Hq & Hqk & Hres).
    exists q. split_and!; [done|done|]. by rewrite <- (proj1 (Hframe q)). }
  split_and!; try done.
  - by rewrite Hout, <- !app_assoc.
  - intros p Hp Hres. apply not_true_is_false. intros [n Hn]%exists_stat.
    rewrite Hgone in Hn; [done|done|]. by rewrite (proj1 (Hframe p)).
  - intros p e Hp Hraised. split.
    + apply Hlogged; [done|]. by rewrite (proj2 (Hframe p)).
    + by apply (refused_path_kept w w1 (upload_files ++ pdf_files) p e).
  - intros l Hl. destruct (Hlog l Hl) as (q & e & Hq & -> & Hwhy).
    exists q, e. split_and!; [done|done|].
    by rewrite <- (proj1 (Hframe q)), <- (proj2 (Hframe q)).
Qed.


Lemma simple_name_meetings_db : Path.simple_name "meetings.db".
Proof. by repeat split. Qed.

Lemma simple_name_backups : Path.simple_name "backups".
Proof. by repeat split. Qed.

Lemma simple_name_backup_name t : Path.simple_name (backup_name t).
Proof.
  unfold backup_name. split_and!; try done.
  rewrite !PathFacts.has_sep_app, PathFacts.has_sep_strftime. done.
Qed.

Lemma locate_db_path w k :
  locate w (DATA_DIR settings) = Some k →
  locate w (db_path settings) = Some (k ++ ["meetings.db"]).
Proof. apply PathFacts.resolve_join, simple_name_meetings_db. Qed.

Lemma locate_backup_path w k t :
  locate w (backup_dir settings) = Some k →
  locate w (backup_path settings t) = Some (k ++ [backup_name t]).
Proof. apply PathFacts.resolve_join, simple_name_backup_name. Qed.

Lemma basename_db_path : Path.basename (db_path settings) = "meetings.db".
Proof. by apply PathFacts.basename_join. Qed.

Lemma strftime_same_second t t' : same_second t t' → strftime t = strftime t'.
Proof. intros (Hy & Hm & Hd & HH & HM & HS). unfold strftime. congruence. Qed.

Lemma copy_bytes_Returns src dst kd data w u w' :
  copy_bytes src dst kd data w = Returns u w' →
  w' = set_fs (<[kd := File data]> (fs w)) w.
Proof. unfold copy_bytes. repeat case_match; congruence. Qed.

Lemma copy_bytes_Raises src dst kd data w e w' :
  copy_bytes src dst kd data w = Raises e w' →
  ∃ limit, file_size_limit w = Some limit ∧ limit < length data ∧
           w' = set_fs (<[kd := File (take limit data)]> (fs w)) w.
Proof.
  unfold copy_bytes. destruct (file_size_limit w) as [limit|]; [|done].
  destruct (limit <? length data) eqn:Hlt; [|done].
  intros [= _ <-]. exists limit. by apply Nat.ltb_lt in Hlt.
Qed.

(** The copy is attempted on a regular file and a target that is
    another location and no directory. *)
Lemma shutil_copyfile_attempt src dst w :
  (∃ e, shutil_copyfile src dst w = Raises e w) ∨
  ∃ ks kd data,
    locate w src = Some ks ∧ locate w dst = Some kd ∧
    fs w !! ks = Some (File data) ∧ ks ≠ kd ∧ FS.is_dir (fs w) kd = false ∧
    shutil_copyfile src dst w = copy_bytes src dst kd data w.
Proof.
  unfold shutil_copyfile.
  destruct (locate w src) as [ks|]; [|left; destruct (locate w dst); by eexists].
  destruct (locate w dst) as [kd|]; [|left; by eexists].
  destruct (bool_decide (ks = kd) && bool_decide (is_Some (fs w !! ks))) eqn:Hsame;
    [left; by eexists|].
  destruct (fs w !! ks) as [[data|]|] eqn:Hks; [|left; by eexists..].
  assert (ks ≠ kd) as Hne.
  { intros ->. apply andb_false_iff in Hsame as [H|H];
      apply bool_decide_eq_false in H; [done|]. by apply H. }
  destruct (fs w !! kd) as [[data'|]|] eqn:Hkd; [|left; by eexists|].
  - right. exists ks, kd, data. unfold FS.is_dir. by rewrite Hkd.
  - destruct (fs w !! removelast kd) as [[|[]]|]; [left; by eexists| |left; by eexists..].
    right. exists ks, kd, data. unfold FS.is_dir. by rewrite Hkd.
Qed.

Lemma shutil_copyfile_Returns src dst w u w' :
  shutil_copyfile src dst w = Returns u w' →
  ∃ ks kd data,
    locate w src = Some ks ∧ locate w dst = Some kd ∧
    fs w !! ks = Some (File data) ∧ ks ≠ kd ∧ FS.is_dir (fs w) kd = false ∧
    w' = set_fs (<[kd := File data]> (fs w)) w.
Proof.
  destruct (shutil_copyfile_attempt src dst w)
    as [[e ->]|(ks & kd & data & ? & ? & ? & ? & ? & ->)]; [done|].
  intros ->%copy_bytes_Returns. by exists ks, kd, data.
Qed.

(** A copy that fails has changed nothing, or has stopped at the limit
    on the size of files, with the first bytes written. *)
Lemma shutil_copyfile_Raises src dst w e w' :
  shutil_copyfile src dst w = Raises e w' →
  w' = w ∨
  ∃ ks kd data limit,
    locate w src = Some ks ∧ locate w dst = Some kd ∧
    fs w !! ks = Some (File data) ∧ ks ≠ kd ∧ FS.is_dir (fs w) kd = false ∧
    file_size_limit w = Some limit ∧ limit < length data ∧
    w' = set_fs (<[kd := File (take limit data)]> (fs w)) w.
Proof.
  destruct (shutil_copyfile_attempt src dst w)
    as [[e0 ->]|(ks & kd & data & ? & ? & ? & ? & ? & ->)]; [left; congruence|].
  intros (limit & ? & ? & ->)%copy_bytes_Raises. right. by exists ks, kd, data, limit.
Qed.

(** What a successful backup has done.  *)
Lemma backup_database_inv w w' :
  backup_database settings w = Returns true w' →
  ∃ data,
    read_bytes w (db_path settings) = Some data ∧
    isdir w' (backup_dir settings) = true ∧
    read_bytes w' (backup_target settings w) = Some data ∧
    read_bytes w' (db_path settings) = Some data ∧
    last (stdout w') = Some ("Database backed up to: " +:+ backup_path settings (clock w)).
Proof.
  unfold backup_database. unfold bind at 1, enter. unfold bind at 1, os_path_exists.
  destruct (exists_ _ _) eqn:Hdb; [|done]. cbn [negb].
  unfold try_except. unfold bind at 1, datetime_now. cbn [clock set_calls].
  unfold bind at 1, os_makedirs.
  change (locate (set_calls ?c w) ?p) with (locate w p).
  destruct (locate w (backup_dir settings)) as [kb|] eqn:Hkb; [|done].
  cbn [fs set_calls].
  destruct (FS.mkdirs _ [] kb (fs w)) as [e|f] eqn:Hmk.
  { pose proof (mkdirs_raises_Exception _ _ _ _ _ Hmk) as ->. done. }
  set (w1 := set_fs f _).
  assert (isdir w1 (backup_path settings (clock w)) = isdir w (backup_path settings (clock w)))
    as Hdir.
  { unfold isdir, stat. change (locate w1 ?p) with (locate w p).
    rewrite (locate_backup_path w kb _ Hkb). subst w1. simpl.
    rewrite (FSFacts.mkdirs_lookup_deeper _ _ _ _ _ _ Hmk); [done|].
    rewrite !length_app. simpl. lia. }
  unfold bind at 1, shutil_copy2, bind at 1, os_path_isdir. rewrite Hdir.
  rewrite basename_db_path. fold (backup_target settings w).
  unfold bind at 1.
  destruct (shutil_copyfile _ _ w1) as [u w2|e w2] eqn:Hcopy.
  2:{ pose proof (safe_shutil_copyfile (db_path settings) (backup_target settings w) w1) as Hs.
      rewrite Hcopy in Hs. by rewrite Hs. }
  apply shutil_copyfile_Returns in Hcopy
    as (ks & kd & data & Hks & Hkd & Hdata & Hne & Hnodir & ->).
  unfold ret, bind, print. intros [= <-]. exists data.
  unfold read_bytes, isdir, stat, locate in *. simpl in *.
  rewrite Hks, Hkd, Hkb. simpl.
  rewrite lookup_insert_eq, (lookup_insert_ne _ _ _ _ (not_eq_sym Hne)), Hdata.
  split_and!; try done.
  - apply exists_stat in Hdb as [n Hn]. unfold stat, locate in Hn. simpl in Hn.
    rewrite Hks in Hn. simpl in Hn.
    rewrite (FSFacts.mkdirs_lookup_Some _ _ _ _ _ _ _ Hmk Hn) in Hdata.
    injection Hdata as ->. by rewrite Hn.
  - pose proof (FSFacts.mkdirs_is_dir _ _ _ _ _ Hmk) as Hb. simpl in Hb.
    pose proof (FSFacts.is_dir_insert_file f kd kb data Hb Hnodir) as Hi.
    unfold FS.is_dir in Hi. by destruct (<[kd:=File data]> f !! kb) as [[]|].
  - by rewrite last_snoc.
Qed.

Lemma elem_of_flags_cons (x f : flag) flags :
  bool_decide (x ∈ f :: flags) = bool_decide (x = f) || bool_decide (x ∈ flags).
Proof.
  apply eq_true_iff_eq.
  rewrite orb_true_iff, !bool_decide_eq_true. apply elem_of_cons.
Qed.

Lemma parse_optional_token f :
  Argparse.parse_optional (token f) =
    Argparse.Optional
      match f with
      | CheckFlag => Argparse.StoreCheck
      | BackupFlag => Argparse.StoreBackup
      | CleanFlag => Argparse.StoreClean
      end (token f) None.
Proof. by destruct f. Qed.

Lemma before_dashes_tokens flags :
  Argparse.before_dashes (map token flags) = map token flags.
Proof. induction flags as [|f flags IH]; [done|]. destruct f; simpl; by rewrite IH. Qed.

Lemma consume_tokens flags : ∀ ns,
  Argparse.consume (map token flags) ns false =
    Argparse.Parsed
      {| Argparse.check := Argparse.check ns || bool_decide (CheckFlag ∈ flags);
         Argparse.backup := Argparse.backup ns || bool_decide (BackupFlag ∈ flags);
         Argparse.clean := Argparse.clean ns || bool_decide (CleanFlag ∈ flags) |}.
Proof.
  induction flags as [|f flags IH]; intros [c b cl].
  - simpl. by rewrite !orb_false_r.
  - rewrite !elem_of_flags_cons. cbn [map Argparse.consume].
    rewrite parse_optional_token.
    destruct f; simpl; rewrite IH; simpl; by destruct c, b, cl.
Qed.

Lemma parse_tokens flags : Argparse.parse (map token flags) = Argparse.Parsed (selected flags).
Proof.
  unfold Argparse.parse. rewrite before_dashes_tokens, consume_tokens.
  assert (existsb Argparse.ambiguous (map token flags) = false) as ->; [|done].
  induction flags as [|f flags IH]; [done|]. simpl. rewrite IH.
  unfold Argparse.ambiguous. by rewrite parse_optional_token.
Qed.

(** [main] on a command line made of flags. *)
Lemma main_tokens flags :
  main settings (map token flags) =
    if negb (Argparse.check (selected flags) || Argparse.backup (selected flags)
             || Argparse.clean (selected flags)) then
      print format_help
    else
      os_makedirs (DATA_DIR settings) ;;
      (if Argparse.check (selected flags)
       then check_database settings ;; ret tt else ret tt) ;;
      (if Argparse.backup (selected flags)
       then backup_database settings ;; ret tt else ret tt) ;;
      (if Argparse.clean (selected flags)
       then clean_orphaned_files settings ;; ret tt else ret tt).
Proof. unfold main, parse_args. by rewrite parse_tokens. Qed.

(** An operation leaves its mark in the ghost history when it is
    entered, and only then. *)
Lemma entered {A} op (body : py A) :
  preserves quiet body →
  ∀ w, calls (final ((enter op ;; body) w)) = calls w ++ [op] ∧
       keeps_dirs w (final ((enter op ;; body) w)).
Proof.
  intros Hbody w. unfold bind, enter.
  destruct (Hbody (set_calls (calls w ++ [op]) w)) as [Hcalls Hdirs].
  split; [exact Hcalls|exact Hdirs].
Qed.

Lemma check_database_entered w :
  calls (final (check_database settings w)) = calls w ++ [OpCheck] ∧
  keeps_dirs w (final (check_database settings w)).
Proof. apply entered. compose. Qed.

Lemma backup_database_entered w :
  calls (final (backup_database settings w)) = calls w ++ [OpBackup] ∧
  keeps_dirs w (final (backup_database settings w)).
Proof. apply entered. compose. Qed.

Lemma clean_orphaned_files_entered w :
  calls (final (clean_orphaned_files settings w)) = calls w ++ [OpClean] ∧
  keeps_dirs w (final (clean_orphaned_files settings w)).
Proof. apply entered. compose. Qed.

(** One of the three [if args.x: operation()] of [main]. *)
Lemma dispatch_one (b : bool) op (c : py bool) w :
  total c →
  (∀ w, calls (final (c w)) = calls w ++ [op] ∧ keeps_dirs w (final (c w))) →
  ∃ w', (if b then c ;; ret tt else ret tt) w = Returns tt w' ∧
        calls w' = calls w ++ (if b then [op] else []) ∧ keeps_dirs w w'.
Proof.
  intros Htotal Hrun. destruct b.
  - unfold bind. specialize (Hrun w). destruct (Htotal w) as (r & w' & Hc).
    rewrite Hc in *. by exists w'.
  - exists w. rewrite app_nil_r. split_and!; try done.
Qed.

Lemma os_makedirs_Returns p w u w1 :
  os_makedirs p w = Returns u w1 →
  isdir w1 p = true ∧ calls w1 = calls w ∧ stdout w1 = stdout w ∧ stdin w1 = stdin w.
Proof.
  unfold os_makedirs, isdir, stat.
  destruct (locate w p) as [k|] eqn:Hk; [|done].
  destruct (FS.mkdirs p [] k (fs w)) as [e|f] eqn:Hmk; [done|].
  intros [= _ <-]. change (locate (set_fs f w) p) with (locate w p). rewrite Hk. simpl.
  apply FSFacts.mkdirs_is_dir in Hmk. unfold FS.is_dir in Hmk. simpl in Hmk.
  by destruct (f !! k) as [[]|].
Qed.

Lemma os_makedirs_Raises p w e w1 : os_makedirs p w = Raises e w1 → w1 = w.
Proof. unfold os_makedirs. repeat case_match; congruence. Qed.

Lemma isdir_kept w w' p : keeps_dirs w w' → isdir w p = true → isdir w' p = true.
Proof.
  intros [Hcwd Hdirs]. unfold isdir, stat, locate. rewrite Hcwd.
  destruct (Path.resolve (cwd w) p) as [k|]; [|done]. exact (Hdirs k).
Qed.

(** C7. After a successful backup the directory [DATA_DIR/backups]
    exists, the database file holds what it held, and the operation has
    reported the backup path
    [DATA_DIR/backups/meetings_<YYYYMMDD_HHMMSS>.db], whose name depends
    on the clock down to the second only.  When no directory sits at
    that path, the file there holds the bytes of the database, as
    claimed.  When a directory sits there, [shutil.copy2] copies into it
    and returns the path of that copy, which [backup_database] drops:
    success is reported for the backup path, and no file is at it. *)
Theorem backup_is_a_copy w w' :
  backup_database settings w = Returns true w' →
  let dst := backup_path settings (clock w) in
  isdir w' (backup_dir settings) = true ∧
  dst = Path.join (Path.join (DATA_DIR settings) "backups")
          ("meetings_" +:+ strftime (clock w) +:+ ".db") ∧
  (∀ t, same_second t (clock w) → backup_path settings t = dst) ∧
  last (stdout w') = Some ("Database backed up to: " +:+ dst) ∧
  ∃ data, read_bytes w (db_path settings) = Some data ∧
          read_bytes w' (db_path settings) = Some data ∧
          if isdir w dst
          then isdir w' dst = true ∧ read_bytes w' dst = None ∧
               read_bytes w' (Path.join dst "meetings.db") = Some data
          else read_bytes w' dst = Some data.
Proof.
  intros Hrun. cbv zeta.
  destruct (backup_database_inv w w' Hrun) as (data & Hsrc & Hdir & Hcopy & Hkept & Hout).
  split_and!; try done.
  - intros t Ht. unfold backup_path, backup_name. by rewrite (strftime_same_second _ _ Ht).
  - exists data. split_and!; try done.
    unfold backup_target in Hcopy.
    destruct (isdir w (backup_path settings (clock w))) eqn:Hthere; [|done].
    assert (isdir w' (backup_path settings (clock w)) = true) as Hstill.
    { pose proof (backup_database_entered w) as [_ Hdirs]. rewrite Hrun in Hdirs.
      by apply (isdir_kept w w'). }
    split_and!; try done.
    unfold isdir in Hstill. unfold read_bytes.
    by destruct (stat w' (backup_path settings (clock w))) as [[]|].
Qed.

Lemma selected_some f flags :
  Argparse.check (selected (f :: flags)) || Argparse.backup (selected (f :: flags))
    || Argparse.clean (selected (f :: flags)) = true.
Proof.
  simpl. rewrite !elem_of_flags_cons.
  by destruct f, (bool_decide (CheckFlag ∈ flags)),
    (bool_decide (BackupFlag ∈ flags)), (bool_decide (CleanFlag ∈ flags)).
Qed.

(** [main] without flags: the help text, and nothing else. *)
Lemma main_help w : main settings [] w = Returns tt (set_stdout (stdout w ++ [format_help]) w).
Proof. reflexivity. Qed.

(** [main] with flags: [os.makedirs], then the operations asked for. *)
Lemma main_dispatch f flags w :
  match os_makedirs (DATA_DIR settings) w with
  | Returns _ w1 =>
      ∃ w', main settings (map token (f :: flags)) w = Returns tt w' ∧
            calls w' = calls w1 ++ requested (f :: flags) ∧ keeps_dirs w1 w'
  | Raises e w1 => main settings (map token (f :: flags)) w = Raises e w1
  end.
Proof.
  rewrite main_tokens, selected_some. cbn [negb].
  destruct (os_makedirs (DATA_DIR settings) w) as [[] w1|e w1] eqn:Hmk;
    unfold bind at 1; rewrite Hmk; [|done].
  cbn [selected Argparse.check Argparse.backup Argparse.clean].
  destruct (dispatch_one (bool_decide (CheckFlag ∈ f :: flags)) OpCheck
              (check_database settings) w1 (total_check_database settings)
              check_database_entered) as (w2 & Hr2 & Hc2 & Hd2).
  destruct (dispatch_one (bool_decide (BackupFlag ∈ f :: flags)) OpBackup
              (backup_database settings) w2 (total_backup_database settings)
              backup_database_entered) as (w3 & Hr3 & Hc3 & Hd3).
  destruct (dispatch_one (bool_decide (CleanFlag ∈ f :: flags)) OpClean
              (clean_orphaned_files settings) w3 (total_clean_orphaned_files settings)
              clean_orphaned_files_entered) as (w4 & Hr4 & Hc4 & Hd4).
  exists w4. unfold bind at 1. rewrite Hr2. unfold bind at 1. rewrite Hr3.
  split; [exact Hr4|]. split.
  - unfold requested. by rewrite Hc4, Hc3, Hc2, <- !app_assoc.
  - by etrans; [|etrans].
Qed.

Lemma selected_permutation flags flags' : flags' ≡ₚ flags → selected flags' = selected flags.
Proof.
  intros Hp. unfold selected.
  by rewrite !(bool_decide_ext _ _ (elem_of_Permutation_proper _ _ _ Hp)).
Qed.

(** C8 (amended). [main] with flags is [os.makedirs(DATA_DIR)]
    followed by the operations the flags ask for, in the order check,
    backup, clean: the same computation whatever the order (and
    repetition) of the flags on the command line.  When [os.makedirs]
    returns, the operations entered are those asked for, in that order;
    when it raises, the exception ends [main] and no operation is
    entered.  Without flags [main] prints the help text, enters no
    operation and leaves the file system alone. *)
Theorem operations_run_in_fixed_order (flags : list flag) w :
  match flags with
  | [] =>
      let w' := set_stdout (stdout w ++ [format_help]) w in
      main settings [] w = Returns tt w' ∧ calls w' = calls w ∧ fs w' = fs w
  | _ :: _ =>
      main settings (map token flags) =
        (os_makedirs (DATA_DIR settings) ;;
         (if bool_decide (CheckFlag ∈ flags)
          then check_database settings ;; ret tt else ret tt) ;;
         (if bool_decide (BackupFlag ∈ flags)
          then backup_database settings ;; ret tt else ret tt) ;;
         (if bool_decide (CleanFlag ∈ flags)
          then clean_orphaned_files settings ;; ret tt else ret tt)) ∧
      match os_makedirs (DATA_DIR settings) w with
      | Returns _ _ =>
          ∃ w', main settings (map token flags) w = Returns tt w' ∧
                calls w' = calls w ++ requested flags
      | Raises e _ =>
          main settings (map token flags) w = Raises e w
      end
  end ∧
  ∀ flags', flags' ≡ₚ flags →
    main settings (map token flags') = main settings (map token flags).
Proof.
  split.
  - destruct flags as [|f flags]; [done|]. split.
    { by rewrite main_tokens, selected_some. }
    pose proof (main_dispatch f flags w) as Hmain.
    destruct (os_makedirs (DATA_DIR settings) w) as [u w1|e w1] eqn:Hmk.
    + destruct Hmain as (w' & Hrun & Hcalls & _). exists w'. split; [done|].
      apply os_makedirs_Returns in Hmk as (_ & <- & _). done.
    + by apply os_makedirs_Raises in Hmk as ->.
  - intros flags' Hp. by rewrite !main_tokens, (selected_permutation _ _ Hp).
Qed.

(** C9 (amended). With at least one flag, [main] calls
    [os.makedirs(DATA_DIR)] before it enters any operation, also when
    the flag is [--check] alone.  When the call returns, [DATA_DIR] is
    a directory from then on until [main] returns; when it raises
    (a regular file in the way, a directory that is not writable) the
    exception leaves [main] and no operation is entered. *)
Theorem data_dir_created_before_dispatch (f : flag) (flags : list flag) w :
  match os_makedirs (DATA_DIR settings) w with
  | Returns _ w1 =>
      isdir w1 (DATA_DIR settings) = true ∧ calls w1 = calls w ∧
      ∃ w', main settings (map token (f :: flags)) w = Returns tt w' ∧
            calls w' = calls w1 ++ requested (f :: flags) ∧
            isdir w' (DATA_DIR settings) = true
  | Raises e _ =>
      main settings (map token (f :: flags)) w = Raises e w
  end.
Proof.
  pose proof (main_dispatch f flags w) as Hmain.
  destruct (os_makedirs (DATA_DIR settings) w) as [u w1|e w1] eqn:Hmk.
  - destruct Hmain as (w' & Hrun & Hcalls & Hdirs).
    apply os_makedirs_Returns in Hmk as (Hdir & ? & _).
    split_and!; try done. exists w'. split_and!; try done.
    by apply (isdir_kept w1 w').
  - by apply os_makedirs_Raises in Hmk as ->.
Qed.

(** Creating [DATA_DIR] does not create the database file. *)
Lemma os_makedirs_DATA_DIR w u w1 :
  os_makedirs (DATA_DIR settings) w = Returns u w1 →
  exists_ w1 (db_path settings) = exists_ w (db_path settings).
Proof.
  unfold os_makedirs.
  destruct (locate w (DATA_DIR settings)) as [k|] eqn:Hk; [|done].
  destruct (FS.mkdirs _ [] k (fs w)) as [e|f] eqn:Hmk; [done|].
  intros [= _ <-]. unfold exists_, stat.
  change (locate (set_fs f w) ?p) with (locate w p).
  rewrite (locate_db_path w k Hk). simpl.
  rewrite (FSFacts.mkdirs_lookup_deeper _ _ _ _ _ _ Hmk); [done|].
  rewrite !length_app. simpl. lia.
Qed.

(** In a well-formed file system, [os.makedirs] of an existing
    directory changes nothing. *)
Lemma os_makedirs_existing w p :
  FS.well_formed (fs w) → isdir w p = true → os_makedirs p w = Returns tt w.
Proof.
  intros Hwf. unfold isdir, stat, os_makedirs.
  destruct (locate w p) as [k|]; [|done]. simpl. intros Hk.
  rewrite FSFacts.mkdirs_existing; [by destruct w|].
  intros pre Hpre. apply (FSFacts.well_formed_ancestors (fs w) k); [done| |done].
  unfold FS.is_dir. by destruct (fs w !! k) as [[]|].
Qed.

(** One [if args.x: operation()] when the database is missing. *)
Lemma dispatch_missing (b : bool) op (c : py bool) w :
  c w = Returns false (reported op [not_found settings] w) →
  (if b then c ;; ret tt else ret tt) w =
    Returns tt (if b then reported op [not_found settings] w else w).
Proof. intros Hc. destruct b; [|done]. unfold bind. by rewrite Hc. Qed.

(** [main] with flags when the database is missing, past
    [os.makedirs]: each operation asked for prints its line and nothing
    else happens. *)
Lemma main_missing f flags w u w1 :
  exists_ w (db_path settings) = false →
  os_makedirs (DATA_DIR settings) w = Returns u w1 →
  ∃ w', main settings (map token (f :: flags)) w = Returns tt w' ∧
        fs w' = fs w1 ∧ stdin w' = stdin w ∧
        stdout w' = stdout w ++
          replicate (length (requested (f :: flags))) (not_found settings).
Proof.
  intros Hdb Hmk. pose proof (os_makedirs_DATA_DIR _ _ _ Hmk) as Hdb1.
  rewrite Hdb in Hdb1.
  pose proof (os_makedirs_Returns _ _ _ _ Hmk) as (_ & _ & Hout & Hin).
  rewrite main_tokens, selected_some. cbn [negb].
  unfold bind at 1. rewrite Hmk.
  cbn [selected Argparse.check Argparse.backup Argparse.clean]. unfold requested.
  set (c := bool_decide (CheckFlag ∈ f :: flags)).
  set (b := bool_decide (BackupFlag ∈ f :: flags)).
  set (cl := bool_decide (CleanFlag ∈ f :: flags)).
  unfold bind at 1.
  rewrite (dispatch_missing c OpCheck (check_database settings) w1)
    by (by apply missing_database).
  set (w2 := if c then _ else w1).
  assert (exists_ w2 (db_path settings) = false) as Hdb2 by (by destruct c).
  unfold bind at 1.
  rewrite (dispatch_missing b OpBackup (backup_database settings) w2)
    by (by apply missing_database).
  set (w3 := if b then _ else w2).
  assert (exists_ w3 (db_path settings) = false) as Hdb3 by (by destruct b).
  rewrite (dispatch_missing cl OpClean (clean_orphaned_files settings) w3)
    by (by apply missing_database).
  eexists. split; [done|].
  subst w2 w3. destruct c, b, cl; simpl; rewrite ?Hout, ?Hin, <- ?app_assoc, ?app_nil_r; done.
Qed.

(** C3 (amended). When the database file does not exist, each
    operation prints the not-found line, returns failure and changes
    nothing in the file system; in a run of [main] with flags the file
    system changes by what [os.makedirs(DATA_DIR)] creates before the
    operations, and by nothing else (so not at all when [DATA_DIR] is
    already there, or when no flag is given). *)
Theorem missing_database_run w :
  exists_ w (db_path settings) = false →
  (check_database settings w = Returns false (reported OpCheck [not_found settings] w) ∧
   backup_database settings w = Returns false (reported OpBackup [not_found settings] w) ∧
   clean_orphaned_files settings w = Returns false (reported OpClean [not_found settings] w) ∧
   ∀ op lines, fs (reported op lines w) = fs w) ∧
  (∀ flags,
     fs (final (main settings (map token flags) w)) =
       match flags with
       | [] => fs w
       | _ :: _ => fs (final (os_makedirs (DATA_DIR settings) w))
       end) ∧
  (∀ flags,
     FS.well_formed (fs w) → isdir w (DATA_DIR settings) = true →
     fs (final (main settings (map token flags) w)) = fs w).
Proof.
  intros Hdb.
  assert (∀ flags,
     fs (final (main settings (map token flags) w)) =
       match flags with
       | [] => fs w
       | _ :: _ => fs (final (os_makedirs (DATA_DIR settings) w))
       end) as Hmain.
  { intros [|f flags]; [done|].
    destruct (os_makedirs (DATA_DIR settings) w) as [u w1|e w1] eqn:Hmk.
    - destruct (main_missing f flags w u w1 Hdb Hmk) as (w' & -> & Hfs & _). done.
    - pose proof (main_dispatch f flags w) as Hrun. rewrite Hmk in Hrun.
      by rewrite Hrun. }
  split_and!; try done; try by apply missing_database.
  intros flags Hwf Hdir. rewrite Hmain. destruct flags; [done|].
  by rewrite (os_makedirs_existing w _ Hwf Hdir).
Qed.

End Operations.

(* ===================================================================== *)
(** * The theorems at work on the small installation *)
(* ===================================================================== *)

Lemma Returns_final {A} (o : outcome A) a : result o = Some a → o = Returns a (final o).
Proof. destruct o; simpl; congruence. Qed.

Lemma os_listdir_Raises p w e : raised (os_listdir p w) = Some e → os_listdir p w = Raises e w.
Proof. unfold os_listdir. repeat case_match; simpl; congruence. Qed.

Module Runs.
Import Demo Scenes.

Lemma orphans_are_set_differences_witness :
  ∃ db audio files upload_names pdf_names,
    current_database settings (start []) = Some db ∧
    meetings db = Some (Column audio) ∧ pdfs db = Some (Column files) ∧
    os_listdir (UPLOAD_DIR settings) (start []) = Returns upload_names (start []) ∧
    os_listdir (PDF_DIR settings) (start []) = Returns pdf_names (start []) ∧
    (∀ p, p ∈ ["/srv/uploads/c.wav"] ↔
          (∃ name, name ∈ upload_names ∧ p = Path.join (UPLOAD_DIR settings) name) ∧
          isfile (start []) p = true ∧ SqlText p ∉ audio) ∧
    (∀ p, p ∈ ["/srv/pdfs/z.pdf"] ↔
          (∃ name, name ∈ pdf_names ∧ p = Path.join (PDF_DIR settings) name) ∧
          isfile (start []) p = true ∧ SqlText p ∉ files).
Proof.
  apply (orphans_are_set_differences settings (start []) _ _
           (final (find_orphans settings (start [])))).
  - vm_compute. reflexivity.
  - apply Returns_final. vm_compute. reflexivity.
Defined.

Lemma declined_cleanup_witness :
  let w'' := set_stdin []
               (reported OpClean [found_uploads 1; found_pdfs 1;
                                  confirm_prompt; "Cleanup aborted"] (start ["n"])) in
  clean_orphaned_files settings (start ["n"]) = Returns false w'' ∧
  fs w'' = fs (start ["n"]).
Proof.
  apply (declined_cleanup settings (start ["n"]) ["/srv/uploads/c.wav"] ["/srv/pdfs/z.pdf"]
           (final (find_orphans settings (start ["n"]))) "n" []).
  - vm_compute. reflexivity.
  - apply Returns_final. vm_compute. reflexivity.
  - discriminate.
  - reflexivity.
  - vm_compute. discriminate.
Defined.

Lemma files_well_formed : FS.well_formed files.
Proof.
  split; [vm_compute; reflexivity|].
  assert (forallb (λ kv : location * node,
                     bool_decide (kv.1 = []) || FS.is_dir files (removelast kv.1))
            (map_to_list files) = true) as H by (vm_compute; reflexivity).
  rewrite forallb_forall in H.
  intros k [n Hn%elem_of_map_to_list%list_elem_of_In] Hne.
  specialize (H (k, n) Hn). simpl in H.
  by rewrite (bool_decide_eq_false_2 _ Hne) in H.
Qed.

Lemma missing_database_run_witness :
  exists_ (start []) (db_path idle_settings) = false ∧
  check_database idle_settings (start []) =
    Returns false (reported OpCheck [not_found idle_settings] (start [])) ∧
  backup_database idle_settings (start []) =
    Returns false (reported OpBackup [not_found idle_settings] (start [])) ∧
  clean_orphaned_files idle_settings (start []) =
    Returns false (reported OpClean [not_found idle_settings] (start [])) ∧
  fs (final (main idle_settings (map token [CleanFlag; CheckFlag]) (start []))) =
    fs (final (os_makedirs (DATA_DIR idle_settings) (start []))) ∧
  fs (final (main idle_settings (map token [CleanFlag; CheckFlag]) (start []))) =
    fs (start []).
Proof.
  assert (exists_ (start []) (db_path idle_settings) = false) as H
    by (vm_compute; reflexivity).
  destruct (missing_database_run idle_settings (start []) H)
    as ((Hcheck & Hbackup & Hclean & _) & Hmain & Hidle).
  split_and!; [exact H|exact Hcheck|exact Hbackup|exact Hclean|exact (Hmain _)|].
  apply Hidle; [exact files_well_formed|vm_compute; reflexivity].
Defined.


Lemma nothing_to_clean_witness :
  let w'' := reported OpClean [found_uploads 0; found_pdfs 0;
                               "No orphaned files to clean up"] tidy in
  clean_orphaned_files settings tidy = Returns true w'' ∧
  fs w'' = fs tidy ∧ stdin w'' = stdin tidy ∧
  confirm_prompt ∉ drop (length (stdout tidy)) (stdout w'').
Proof.
  apply (nothing_to_clean settings tidy (final (find_orphans settings tidy))).
  - vm_compute. reflexivity.
  - apply Returns_final. vm_compute. reflexivity.
Defined.

(** C7 at the failing input: a directory sits where the backup taken at
    [noon] is to be written.  The operation reports success for the
    backup path; that path is still the directory, no file is at it, and
    the copy is inside the directory. *)
Lemma backup_is_a_copy_witness :
  let w' := final (backup_database settings occupied) in
  let dst := "/srv/data/backups/meetings_20240309_120507.db" in
  result (backup_database settings occupied) = Some true ∧
  backup_path settings (clock occupied) = dst ∧
  isdir occupied dst = true ∧
  last (stdout w') = Some ("Database backed up to: " +:+ dst) ∧
  isdir w' dst = true ∧ isfile w' dst = false ∧ read_bytes w' dst = None ∧
  read_bytes w' (Path.join dst "meetings.db") = Some db_bytes ∧
  read_bytes w' (db_path settings) = Some db_bytes.
Proof.
  cbv zeta.
  assert (backup_database settings occupied =
          Returns true (final (backup_database settings occupied))) as Hrun
    by (apply Returns_final; vm_compute; reflexivity).
  destruct (backup_is_a_copy settings occupied _ Hrun)
    as (_ & Hdst & _ & Hout & data & Hsrc & Hkept & Hcopy).
  assert (backup_path settings (clock occupied) =
          "/srv/data/backups/meetings_20240309_120507.db") as Hpath
    by (vm_compute; reflexivity).
  assert (isdir occupied "/srv/data/backups/meetings_20240309_120507.db" = true) as Hthere
    by (vm_compute; reflexivity).
  assert (data = db_bytes) as ->.
  { assert (read_bytes occupied (db_path settings) = Some db_bytes) as H
      by (vm_compute; reflexivity).
    congruence. }
  rewrite Hpath in Hout, Hcopy. rewrite Hthere in Hcopy.
  destruct Hcopy as (Hdir & Hnone & Hinside).
  split_and!; done.
Defined.

Lemma listing_failure_witness :
  let w' := reported OpClean [cleaning_error (FileNotFoundError "/srv/inbox")] (start []) in
  clean_orphaned_files unlisted_settings (start []) = Returns false w' ∧
  fs w' = fs (start []) ∧ stdin w' = stdin (start []).
Proof.
  apply (listing_failure unlisted_settings (start []) db
           [SqlText "/srv/uploads/a.wav"; SqlNull; SqlText "/srv/uploads/b.wav"; SqlText ""]
           [SqlText "/srv/pdfs/a.pdf"] (FileNotFoundError "/srv/inbox")).
  - vm_compute. reflexivity.
  - vm_compute. reflexivity.
  - reflexivity.
  - reflexivity.
  - left. apply os_listdir_Raises. vm_compute. reflexivity.
Defined.

(** C3, as stated, fails: with [DATA_DIR] not created yet the database
    file does not exist, [main --check] prints the not-found line, and
    the run has created [DATA_DIR]. *)
Lemma missing_database_run_creates_data_dir :
  let w := start [] in
  let w' := final (main fresh_settings ["--check"] w) in
  exists_ w (db_path fresh_settings) = false ∧
  result (main fresh_settings ["--check"] w) = Some tt ∧
  stdout w' = ["Database not found at: /srv/var/data/meetings.db"] ∧
  exists_ w "/srv/var/data" = false ∧
  isdir w' "/srv/var/data" = true ∧
  fs w' ≠ fs w.
Proof.
  cbv zeta. split_and!; try (vm_compute; reflexivity).
  intros Heq.
  assert (isdir (final (main fresh_settings ["--check"] (start []))) "/srv/var/data"
          = isdir (start []) "/srv/var/data") as H.
  { unfold isdir, stat, locate. by rewrite Heq. }
  vm_compute in H. discriminate.
Qed.

(** C9, as stated, fails: with [DATA_DIR] below a directory that is not
    writable, [main --check] ends with the error of [os.makedirs];
    [DATA_DIR] does not exist afterwards and no operation was
    entered. *)
Lemma data_dir_not_created :
  let w' := final (main locked_settings ["--check"] (start [])) in
  raised (main locked_settings ["--check"] (start [])) =
    Some (PermissionError "/srv/pdfs/data") ∧
  exists_ w' (DATA_DIR locked_settings) = false ∧
  calls w' = [] ∧ stdout w' = [].
Proof. cbv zeta. split_and!; vm_compute; reflexivity. Qed.

(** C8, as stated, fails: with [DATA_DIR] below a directory that is not
    writable, [main --clean --check] asks for the check and the
    cleanup, and neither is executed: [os.makedirs] raises, and the
    exception ends [main] before any operation is entered. *)
Lemma requested_operations_not_run :
  let run := main locked_settings (map token [CleanFlag; CheckFlag]) (start []) in
  requested [CleanFlag; CheckFlag] = [OpCheck; OpClean] ∧
  raised run = Some (PermissionError "/srv/pdfs/data") ∧
  calls (final run) = [] ∧ stdout (final run) = [] ∧
  calls (final run) ≠ calls (start []) ++ requested [CleanFlag; CheckFlag].
Proof. cbv zeta. split_and!; try (vm_compute; reflexivity). vm_compute. discriminate. Qed.

End Runs.

(* ===================================================================== *)
(** * Further properties of the operations *)
(* ===================================================================== *)

Section MoreOperations.
Context {engine : Sqlite} (settings : Settings).

Lemma read_bytes_located w p data :
  read_bytes w p = Some data →
  ∃ k, locate w p = Some k ∧ fs w !! k = Some (File data).
Proof.
  unfold read_bytes, stat. destruct (locate w p) as [k|]; [|done]. simpl.
  destruct (fs w !! k) as [[d|]|] eqn:Hk; try done. intros [= ->]. by exists k.
Qed.

Lemma read_bytes_exists w p data : read_bytes w p = Some data → exists_ w p = true.
Proof.
  intros (k & Hk & Hf)%read_bytes_located. apply exists_stat.
  unfold stat. rewrite Hk. simpl. by rewrite Hf.
Qed.

(** How [check_database] starts on a file that is there: the connection
    is the location of the file, and nothing has changed yet. *)
Lemma check_database_connected w k data :
  locate w (db_path settings) = Some k → fs w !! k = Some (File data) →
  check_database settings w =
    try_except
      (meeting_count <- select_count "meetings" meetings k ;;
       pdf_count <- select_count "pdfs" pdfs k ;;
       db_size <- os_path_getsize (db_path settings) ;;
       print "Database Status:" ;;
       print ("  - Location: " +:+ db_path settings) ;;
       print ("  - Size: " +:+ format_megabytes db_size +:+ " MB") ;;
       print ("  - Meetings: " +:+ Str.of_nat meeting_count) ;;
       print ("  - PDF records: " +:+ Str.of_nat pdf_count) ;;
       integrity <- pragma_integrity_check k ;;
       print ("  - Integrity check: " +:+ integrity) ;;
       ret true)
      (λ e, print (checking_error e) ;; ret false)
      (set_calls (calls w ++ [OpCheck]) w).
Proof.
  intros Hk Hf. unfold check_database. unfold bind at 1, enter.
  unfold bind at 1, os_path_exists.
  assert (exists_ (set_calls (calls w ++ [OpCheck]) w) (db_path settings) = true) as ->.
  { apply exists_stat. unfold stat.
    change (locate (set_calls ?c w) ?p) with (locate w p). rewrite Hk. simpl.
    by rewrite Hf. }
  cbn [negb]. unfold try_except. unfold bind at 1, sqlite3_connect.
  change (locate (set_calls ?c w) ?p) with (locate w p). rewrite Hk.
  cbn [fs set_calls]. by rewrite Hf.
Qed.

(** X1. On a database that can be read, [check_database] prints the
    location, the size of the file in megabytes, the numbers of rows of
    [meetings] and [pdfs] and the first row of the integrity check, and
    returns success; it changes nothing but the output. *)
Theorem check_database_healthy w data db tm tp row :
  read_bytes w (db_path settings) = Some data →
  sqlite_decode data = Some db →
  meetings db = Some tm → pdfs db = Some tp → integrity_check db = inr row →
  let w' := reported OpCheck
              (status_lines settings (length data) (row_count tm) (row_count tp) ++
               ["  - Integrity check: " +:+ row]) w in
  check_database settings w = Returns true w' ∧ fs w' = fs w ∧ stdin w' = stdin w.
Proof.
  intros (k & Hk & Hf)%read_bytes_located Hdb Hm Hp Hi. cbv zeta. split; [|done].
  rewrite (check_database_connected w k data Hk Hf).
  unfold try_except, bind, select_count, bind, read_database, pragma_integrity_check,
    bind, read_database, os_path_getsize, stat, print, ret.
  cbn [fs set_calls set_stdout]. rewrite Hf, Hdb, Hm. cbn [fs set_calls set_stdout].
  rewrite Hf, Hdb, Hp. cbn [fs set_calls set_stdout].
  change (locate (set_calls ?c w) ?p) with (locate w p).
  rewrite Hk. simpl. rewrite Hf. simpl. rewrite Hf, Hdb, Hi. simpl.
  f_equal. unfold reported, status_lines, set_stdout, set_calls. simpl.
  by rewrite <- !app_assoc.
Qed.

(** X2. When a table is missing the count query raises before anything
    is printed: [check_database] prints one error line naming the first
    missing table ([meetings] before [pdfs]) and returns failure. *)
Theorem check_database_missing_table w data db :
  read_bytes w (db_path settings) = Some data →
  sqlite_decode data = Some db →
  meetings db = None ∨ pdfs db = None →
  let name := match meetings db with None => "meetings" | Some _ => "pdfs" end in
  check_database settings w =
    Returns false
      (reported OpCheck [checking_error (OperationalError ("no such table: " +:+ name))] w).
Proof.
  intros (k & Hk & Hf)%read_bytes_located Hdb Hmissing. cbv zeta.
  rewrite (check_database_connected w k data Hk Hf).
  unfold try_except, bind, select_count, bind, read_database, raise, print, ret.
  cbn [fs set_calls set_stdout]. rewrite Hf, Hdb.
  destruct (meetings db) as [tm|] eqn:Hm; [|done].
  destruct Hmissing as [|Hp]; [done|]. cbn [fs set_calls set_stdout].
  by rewrite Hf, Hdb, Hp.
Qed.

(** X3. When the integrity check itself raises, the status lines are
    already printed: [check_database] adds the error line after them and
    returns failure. *)
Theorem check_database_integrity_failure w data db tm tp msg :
  read_bytes w (db_path settings) = Some data →
  sqlite_decode data = Some db →
  meetings db = Some tm → pdfs db = Some tp → integrity_check db = inl msg →
  check_database settings w =
    Returns false
      (reported OpCheck
         (status_lines settings (length data) (row_count tm) (row_count tp) ++
          [checking_error (DatabaseError msg)]) w).
Proof.
  intros (k & Hk & Hf)%read_bytes_located Hdb Hm Hp Hi.
  rewrite (check_database_connected w k data Hk Hf).
  unfold try_except, bind, select_count, bind, read_database, pragma_integrity_check,
    bind, read_database, os_path_getsize, stat, print, ret, raise.
  cbn [fs set_calls set_stdout]. rewrite Hf, Hdb, Hm. cbn [fs set_calls set_stdout].
  rewrite Hf, Hdb, Hp. cbn [fs set_calls set_stdout].
  change (locate (set_calls ?c w) ?p) with (locate w p).
  rewrite Hk. simpl. rewrite Hf. simpl. rewrite Hf, Hdb, Hi. simpl.
  f_equal. unfold reported, status_lines, set_stdout, set_calls. simpl.
  by rewrite <- !app_assoc.
Qed.

(** X7. A file that is no SQLite database: [check_database] and
    [clean_orphaned_files] each print one error line saying so and return
    failure; nothing is listed, asked or deleted. *)
Theorem not_a_database w data :
  read_bytes w (db_path settings) = Some data →
  sqlite_decode data = None →
  let e := DatabaseError "file is not a database" in
  check_database settings w = Returns false (reported OpCheck [checking_error e] w) ∧
  clean_orphaned_files settings w = Returns false (reported OpClean [cleaning_error e] w).
Proof.
  intros Hread Hdb. cbv zeta. split.
  - destruct (read_bytes_located _ _ _ Hread) as (k & Hk & Hf).
    rewrite (check_database_connected w k data Hk Hf).
    unfold try_except, bind, select_count, bind, read_database, raise, print, ret.
    cbn [fs set_calls set_stdout]. by rewrite Hf, Hdb.
  - destruct (read_bytes_located _ _ _ Hread) as (k & Hk & Hf).
    unfold clean_orphaned_files. unfold bind at 1, enter.
    unfold bind at 1, os_path_exists.
    change (exists_ (set_calls _ w) ?p) with (exists_ w p).
    rewrite (read_bytes_exists _ _ _ Hread). cbn [negb].
    unfold try_except at 1. unfold bind at 1.
    rewrite ignores_calls_find_orphans.
    assert (find_orphans settings w = Raises (DatabaseError "file is not a database") w)
      as ->; [|done].
    unfold find_orphans, bind at 1, sqlite3_connect. rewrite Hk, Hf.
    unfold bind at 1, select_column, bind at 1, read_database. by rewrite Hf, Hdb.
Qed.

End MoreOperations.

Section MoreOperations2.
Context {engine : Sqlite} (settings : Settings).

(** X17. A command line that asks for help, or that the parser refuses,
    makes [main] end before it does anything: [os.makedirs] is not
    called and no operation is entered, whatever flags the command line
    holds besides.  For [-h] the help text is written to standard output
    and the exit status is 0; for a refused command line nothing is
    written to standard output and the exit status is 2. *)
Theorem main_exits_before_acting argv w :
  (∀ args, Argparse.parse argv ≠ Argparse.Parsed args) →
  (Argparse.parse argv = Argparse.HelpExit ∧
   main settings argv w =
     Raises (SystemExit 0) (set_stdout (stdout w ++ [format_help]) w)) ∨
  (Argparse.parse argv = Argparse.UsageError ∧
   main settings argv w = Raises (SystemExit 2) w).
Proof.
  intros Hno. unfold main, parse_args, bind.
  destruct (Argparse.parse argv) as [args| |]; [by destruct (Hno args)|left|right]; done.
Qed.

(** X8. When the scan found an orphan and standard input is at its end,
    [input] raises [EOFError] inside the [try]: the operation prints the
    error after the prompt and returns failure; nothing is deleted. *)
Theorem cleanup_at_end_of_input w upload_files pdf_files w' :
  exists_ w (db_path settings) = true →
  find_orphans settings w = Returns (upload_files, pdf_files) w' →
  upload_files ++ pdf_files ≠ [] →
  stdin w = [] →
  let w'' := reported OpClean [found_uploads (length upload_files);
                               found_pdfs (length pdf_files);
                               confirm_prompt; cleaning_error EOFError] w in
  clean_orphaned_files settings w = Returns false w'' ∧ fs w'' = fs w.
Proof.
  intros Hdb Hrun Hsome Hin. pose proof (find_orphans_Returns _ _ _ _ Hdb Hrun) as ->.
  rewrite (clean_orphaned_files_scanned _ _ _ _ Hdb Hrun). cbv zeta.
  rewrite (some_orphan _ _ Hsome). split; [|done].
  unfold try_except, bind, input. simpl. rewrite Hin. simpl.
  f_equal. unfold reported, set_stdout. simpl. by rewrite <- !app_assoc.
Qed.

(** A scan that raises ends the operation in its handler. *)
Lemma clean_orphaned_files_scan_raises w e w1 :
  exists_ w (db_path settings) = true →
  find_orphans settings w = Raises e w1 →
  clean_orphaned_files settings w = Returns false (reported OpClean [cleaning_error e] w).
Proof.
  intros Hdb Hrun.
  pose proof (find_orphans_reads_only settings w Hdb) as Hw. rewrite Hrun in Hw.
  simpl in Hw. subst w1.
  pose proof (safe_find_orphans settings w) as He. rewrite Hrun in He.
  unfold clean_orphaned_files. unfold bind at 1, enter. unfold bind at 1, os_path_exists.
  change (exists_ (set_calls _ w) ?p) with (exists_ w p). rewrite Hdb.
  cbn [negb]. unfold try_except at 1. unfold bind at 1.
  rewrite ignores_calls_find_orphans, Hrun. cbn [map_world]. by rewrite He.
Qed.

End MoreOperations2.

Lemma entries_subseteq (f f' : filesystem) d name :
  f' ⊆ f → name ∈ FS.entries f' d → name ∈ FS.entries f d.
Proof.
  intros Hsub. unfold FS.entries. rewrite !list_elem_of_omap.
  intros ([k n] & Hin & Hname). exists (k, n). split; [|done].
  apply elem_of_map_to_list. apply elem_of_map_to_list in Hin.
  by eapply lookup_weaken.
Qed.

Lemma stat_weaken w w' p n :
  cwd w' = cwd w → fs w' ⊆ fs w → stat w' p = Some n → stat w p = Some n.
Proof.
  intros Hcwd Hsub. unfold stat, locate. rewrite Hcwd.
  destruct (Path.resolve (cwd w) p) as [k|]; [|done]. simpl.
  intros Hk. by eapply lookup_weaken.
Qed.

Lemma os_listdir_Returns p w names w' :
  os_listdir p w = Returns names w' →
  w' = w ∧ ∃ k, locate w p = Some k ∧ FS.is_dir (fs w) k = true ∧
                names = FS.entries (fs w) k.
Proof.
  unfold os_listdir. destruct (locate w p) as [k|]; [|done].
  destruct (fs w !! k) as [[|d]|] eqn:Hk; try done. intros [= <- <-].
  split; [done|]. exists k. unfold FS.is_dir. by rewrite Hk.
Qed.

Section MoreOperations3.
Context {engine : Sqlite} (settings : Settings).

(** The orphans of a later scan, in a world that has lost entries and
    gained none, with the same database: they were orphans before. *)
Lemma orphans_weaken w w' dir names names' refs q :
  cwd w' = cwd w → fs w' ⊆ fs w →
  os_listdir dir w = Returns names w → os_listdir dir w' = Returns names' w' →
  q ∈ orphans w' dir names' refs → q ∈ orphans w dir names refs ∧ isfile w' q = true.
Proof.
  intros Hcwd Hsub Hl Hl'.
  apply os_listdir_Returns in Hl as (_ & k & Hk & _ & ->).
  apply os_listdir_Returns in Hl' as (_ & k' & Hk' & _ & ->).
  unfold locate in *. rewrite Hcwd, Hk in Hk'. injection Hk' as <-.
  rewrite !elem_of_orphans. intros ((name & Hname & ->) & Hfile & Hrefs).
  split; [|done]. split_and!; [|  |done].
  - exists name. split; [|done]. by eapply entries_subseteq.
  - unfold isfile in *. destruct (stat w' _) as [[data|]|] eqn:Hs; try done.
    by rewrite (stat_weaken w w' _ _ Hcwd Hsub Hs).
Qed.


End MoreOperations3.

(** What [mkdirs] adds is directories. *)
Lemma mkdirs_new_entries name todo : ∀ here (f f' : filesystem) k n,
  FS.mkdirs name here todo f = inr f' → f' !! k = Some n →
  f !! k = Some n ∨ (f !! k = None ∧ n = Dir true).
Proof.
  induction todo as [|c rest IH]; intros here f f' k n; simpl;
    destruct (f !! here) as [[|d]|] eqn:Hhere; try done.
  - intros [= <-]. by left.
  - destruct (f !! (here ++ [c])) eqn:Hnext; [by apply IH|].
    destruct d; [|done]. intros Hrun Hk.
    destruct (IH _ _ _ _ _ Hrun Hk) as [Hin|[Hin ->]].
    + destruct (decide (k = here ++ [c])) as [->|Hne].
      * rewrite lookup_insert_eq in Hin. injection Hin as <-. by right.
      * rewrite lookup_insert_ne in Hin by done. by left.
    + right. split; [|done].
      destruct (decide (k = here ++ [c])) as [->|Hne]; [done|].
      by rewrite lookup_insert_ne in Hin.
Qed.

Lemma os_makedirs_adds_directories p w u w1 :
  os_makedirs p w = Returns u w1 →
  cwd w1 = cwd w ∧ stdin w1 = stdin w ∧ fs w ⊆ fs w1 ∧
  ∀ k n, fs w1 !! k = Some n → fs w !! k = Some n ∨ (fs w !! k = None ∧ n = Dir true).
Proof.
  unfold os_makedirs. destruct (locate w p) as [k|]; [|done].
  destruct (FS.mkdirs p [] k (fs w)) as [e|f] eqn:Hmk; [done|].
  intros [= _ <-]. simpl. split_and!; try done.
  - apply map_subseteq_spec. intros k' n Hk'.
    by apply (FSFacts.mkdirs_lookup_Some _ _ _ _ _ _ _ Hmk).
  - intros k' n. by apply (mkdirs_new_entries _ _ _ _ _ _ _ Hmk).
Qed.

Lemma shutil_copy2_Raises src dst w e w' :
  shutil_copy2 src dst w = Raises e w' →
  w' = w ∨
  ∃ ks kd data limit,
    locate w src = Some ks ∧ fs w !! ks = Some (File data) ∧ ks ≠ kd ∧
    w' = set_fs (<[kd := File (take limit data)]> (fs w)) w.
Proof.
  unfold shutil_copy2, bind at 1, os_path_isdir. unfold bind at 1.
  destruct (shutil_copyfile _ _ w) as [u w2|e2 w2] eqn:Hcp; [done|].
  intros [= <- <-].
  apply shutil_copyfile_Raises in Hcp
    as [->|(ks & kd & data & limit & ? & _ & ? & ? & _ & _ & _ & ->)]; [by left|right].
  by exists ks, kd, data, limit.
Qed.

Section MoreOperations4.
Context {engine : Sqlite} (settings : Settings).

(** The three ways a backup goes, once the database file is there. *)
Lemma backup_database_run w :
  exists_ w (db_path settings) = true →
  let w0 := set_calls (calls w ++ [OpBackup]) w in
  let failed e w1 :=
    Returns false (set_stdout (stdout w1 ++ ["Error backing up database: " +:+ exn_str e]) w1) in
  backup_database settings w =
    match os_makedirs (backup_dir settings) w0 with
    | Raises e w1 => failed e w1
    | Returns _ w1 =>
        match shutil_copy2 (db_path settings) (backup_path settings (clock w)) w1 with
        | Raises e w2 => failed e w2
        | Returns _ w2 =>
            Returns true
              (set_stdout (stdout w2 ++ ["Database backed up to: " +:+
                                         backup_path settings (clock w)]) w2)
        end
    end.
Proof.
  intros Hdb. cbv zeta.
  unfold backup_database. unfold bind at 1, enter. unfold bind at 1, os_path_exists.
  change (exists_ (set_calls _ w) ?p) with (exists_ w p). rewrite Hdb. cbn [negb].
  unfold try_except. unfold bind at 1, datetime_now. cbn [clock set_calls].
  unfold bind at 1.
  pose proof (safe_os_makedirs (backup_dir settings) (set_calls (calls w ++ [OpBackup]) w))
    as Hs1.
  destruct (os_makedirs _ _) as [u w1|e w1]; [|by rewrite Hs1].
  unfold bind at 1.
  pose proof (safe_shutil_copy2 (db_path settings) (backup_path settings (clock w)) w1)
    as Hs2.
  destruct (shutil_copy2 _ _ w1) as [d w2|e w2]; [done|by rewrite Hs2].
Qed.

(** X5. What a backup that reports failure can have changed.  The
    database file holds what it held.  Either the file system is as it
    was but for new directories (the backup directory and its parents,
    when the copy failed after they were made); or, the copy having
    stopped short, one more location has changed: the target of the
    copy, which is not the database, and which holds, in place of
    whatever it held, the first bytes of the database. *)
Theorem failed_backup_keeps_the_rest w w' :
  backup_database settings w = Returns false w' →
  let kept k :=
    (∀ n, fs w !! k = Some n → fs w' !! k = Some n) ∧
    (∀ n, fs w' !! k = Some n → fs w !! k = Some n ∨ (fs w !! k = None ∧ n = Dir true)) in
  stdin w' = stdin w ∧
  read_bytes w' (db_path settings) = read_bytes w (db_path settings) ∧
  ((∀ k, kept k) ∨
   ∃ kt data n,
     locate w (db_path settings) ≠ Some kt ∧
     read_bytes w (db_path settings) = Some data ∧
     fs w' !! kt = Some (File (take n data)) ∧
     ∀ k, k ≠ kt → kept k).
Proof.
  cbv zeta.
  assert (∀ w1 : world, cwd w1 = cwd w → stdin w1 = stdin w → fs w ⊆ fs w1 →
            (∀ k n, fs w1 !! k = Some n →
                    fs w !! k = Some n ∨ (fs w !! k = None ∧ n = Dir true)) →
            stdin w1 = stdin w ∧
            read_bytes w1 (db_path settings) = read_bytes w (db_path settings) ∧
            ∀ k, (∀ n, fs w !! k = Some n → fs w1 !! k = Some n) ∧
                 (∀ n, fs w1 !! k = Some n →
                       fs w !! k = Some n ∨ (fs w !! k = None ∧ n = Dir true))) as Hdirs.
  { intros w1 Hcwd Hin Hsub Hnew. split_and!; [done| |].
    - unfold read_bytes, stat, locate. rewrite Hcwd.
      destruct (Path.resolve (cwd w) (db_path settings)) as [k|]; [|done]. simpl.
      destruct (fs w1 !! k) as [n|] eqn:Hk.
      + destruct (Hnew k n Hk) as [->|[-> ->]]; done.
      + by rewrite (lookup_weaken_None _ _ _ Hk Hsub).
    - intros k. split; [|by apply Hnew]. intros n Hn. by eapply lookup_weaken. }
  destruct (exists_ w (db_path settings)) eqn:Hdb.
  2: { destruct (missing_database settings w Hdb) as (_ & -> & _).
       intros [= <-]. destruct (Hdirs w) as (? & ? & ?); try done.
       { intros k n ?. by left. }
       split_and!; [done|done|by left]. }
  rewrite (backup_database_run w Hdb). cbv zeta.
  destruct (os_makedirs _ _) as [u w1|e w1] eqn:Hmk.
  2: { apply os_makedirs_Raises in Hmk as ->. intros [= <-].
       destruct (Hdirs w) as (? & ? & ?); try done.
       { intros k n ?. by left. }
       split_and!; [done|done|by left]. }
  apply os_makedirs_adds_directories in Hmk as (Hcwd & Hin & Hsub & Hnew).
  destruct (shutil_copy2 _ _ w1) as [d w2|e w2] eqn:Hcp; [done|].
  destruct (Hdirs w1) as (_ & Hread & Hkept); try done.
  apply shutil_copy2_Raises in Hcp as [->|(ks & kd & data & limit & Hks & Hdata & Hne & ->)];
    intros [= <-]; simpl in *.
  { split_and!; [done|done|by left]. }
  assert (locate w (db_path settings) = Some ks) as Hloc.
  { unfold locate in *. simpl in *. by rewrite <- Hcwd. }
  assert (read_bytes w1 (db_path settings) = Some data) as Hsrc.
  { unfold read_bytes, stat. change (locate w1 ?p) with (Path.resolve (cwd w1) p).
    unfold locate in Hks. simpl in Hks. rewrite Hks. simpl. by rewrite Hdata. }
  split_and!; [done| |right].
  - rewrite <- Hread, Hsrc. unfold read_bytes, stat, locate in *. simpl in *.
    rewrite Hks. simpl. by rewrite lookup_insert_ne, Hdata.
  - exists kd, data, limit. split_and!.
    + congruence.
    + congruence.
    + apply lookup_insert_eq.
    + intros k Hk. rewrite lookup_insert_ne by done. apply Hkept.
Qed.

(** X6. A successful backup writes exactly one file: at one location,
    which is not that of the database, there is afterwards a regular file
    with the bytes the database had; every other entry is as it was, and
    what else is new is directories. *)
Theorem backup_writes_one_file w w' :
  backup_database settings w = Returns true w' →
  ∃ kt data,
    read_bytes w (db_path settings) = Some data ∧
    locate w (db_path settings) ≠ Some kt ∧
    fs w' !! kt = Some (File data) ∧
    ∀ k, k ≠ kt →
      (∀ n, fs w !! k = Some n → fs w' !! k = Some n) ∧
      (∀ n, fs w' !! k = Some n → fs w !! k = Some n ∨ (fs w !! k = None ∧ n = Dir true)).
Proof.
  destruct (exists_ w (db_path settings)) eqn:Hdb.
  2: { by destruct (missing_database settings w Hdb) as (_ & -> & _). }
  rewrite (backup_database_run w Hdb). cbv zeta.
  destruct (os_makedirs _ _) as [u w1|e w1] eqn:Hmk; [|done].
  apply os_makedirs_adds_directories in Hmk as (Hcwd & _ & Hsub & Hnew).
  unfold shutil_copy2, bind at 1, os_path_isdir. unfold bind at 1.
  destruct (shutil_copyfile _ _ w1) as [v w2|] eqn:Hcp; [|done].
  apply shutil_copyfile_Returns in Hcp
    as (ks & kt & data & Hks & _ & Hdata & Hne & _ & ->).
  unfold ret. intros [= <-]. simpl in *.
  assert (fs w !! ks = Some (File data)) as Hsrc.
  { apply exists_stat in Hdb as [n Hn]. unfold stat, locate in *. simpl in *.
    rewrite Hcwd in Hks. rewrite Hks in Hn. simpl in Hn.
    pose proof (lookup_weaken _ _ _ _ Hn Hsub). congruence. }
  exists kt, data. split_and!.
  - unfold read_bytes, stat, locate in *. simpl in *. rewrite Hcwd in Hks.
    rewrite Hks. simpl. by rewrite Hsrc.
  - unfold locate in *. simpl in *. rewrite Hcwd in Hks. rewrite Hks. congruence.
  - apply lookup_insert_eq.
  - intros k Hk. rewrite lookup_insert_ne by done. split.
    + intros n Hn. by eapply lookup_weaken.
    + intros n. apply Hnew.
Qed.

End MoreOperations4.

Module FormatFacts.

Lemma length_append a b : String.length (a +:+ b) = String.length a + String.length b.
Proof.
  induction a as [|c a IH]; [done|].
  rewrite PathFacts.append_cons. simpl. by rewrite IH.
Qed.

Lemma append_inj_length a a' b b' :
  String.length a = String.length a' → a +:+ b = a' +:+ b' → a = a' ∧ b = b'.
Proof.
  revert a'. induction a as [|c a IH]; intros [|c' a'] Hlen; try done.
  rewrite !PathFacts.append_cons. intros [= -> Heq].
  destruct (IH a') as [-> ->]; [by injection Hlen|done|done].
Qed.

Lemma of_uint_D0 d : Nat.of_uint (Decimal.D0 d) = Nat.of_uint d.
Proof. reflexivity. Qed.

(** Reading a padded field back gives the number. *)
Lemma read_zfill width n :
  Nat.of_uint <$> NilEmpty.uint_of_string (zfill width n) = Some n.
Proof.
  unfold zfill, Str.of_nat. generalize (width - String.length
    (NilEmpty.string_of_uint (Nat.to_uint n))). intros pad.
  induction pad as [|pad IH].
  - rewrite PathFacts.append_nil, NilEmpty.usu. simpl.
    by rewrite DecimalNat.Unsigned.of_to.
  - simpl zeros. rewrite PathFacts.append_cons. simpl.
    destruct (NilEmpty.uint_of_string _) as [d|]; [|done].
    simpl in *. by rewrite of_uint_D0.
Qed.

Lemma zfill_inj width n n' : zfill width n = zfill width n' → n = n'.
Proof.
  intros Heq. pose proof (read_zfill width n) as Hn.
  rewrite Heq, read_zfill in Hn. by injection Hn.
Qed.

Lemma length_zfill_2 n : n ≤ 99 → String.length (zfill 2 n) = 2.
Proof.
  intros Hn. do 100 (destruct n as [|n]; [reflexivity|]). lia.
Qed.

End FormatFacts.

Section Naming.
Context (settings : Settings).

Lemma strftime_inj t t' :
  valid_datetime t → valid_datetime t' → strftime t = strftime t' → same_second t t'.
Proof.
  intros (_ & [_ Hm] & [_ Hd] & HH & HM & HS) (_ & [_ Hm'] & [_ Hd'] & HH' & HM' & HS').
  unfold strftime. intros Heq.
  assert (∀ n, n ≤ 12 → n ≤ 99) as H12 by lia.
  assert (∀ n, n ≤ 31 → n ≤ 99) as H31 by lia.
  assert (∀ n, n ≤ 23 → n ≤ 99) as H23 by lia.
  assert (∀ n, n ≤ 59 → n ≤ 99) as H59 by lia.
  pose proof (f_equal String.length Heq) as Hlen.
  rewrite !FormatFacts.length_append in Hlen.
  rewrite !FormatFacts.length_zfill_2 in Hlen by auto.
  apply FormatFacts.append_inj_length in Heq as [Hy Heq]; [|lia].
  apply FormatFacts.append_inj_length in Heq as [Hmo Heq];
    [|by rewrite !FormatFacts.length_zfill_2 by auto].
  apply FormatFacts.append_inj_length in Heq as [Hda Heq];
    [|by rewrite !FormatFacts.length_zfill_2 by auto].
  apply FormatFacts.append_inj_length in Heq as [_ Heq]; [|done].
  apply FormatFacts.append_inj_length in Heq as [Hho Heq];
    [|by rewrite !FormatFacts.length_zfill_2 by auto].
  apply FormatFacts.append_inj_length in Heq as [Hmi Hse];
    [|by rewrite !FormatFacts.length_zfill_2 by auto].
  unfold same_second. split_and!; by eapply FormatFacts.zfill_inj.
Qed.

(** X13. Backups taken in different seconds go to different paths: for
    clock readings that are dates and times of day, equal backup paths
    mean equal year, month, day, hour, minute and second. *)
Theorem backup_paths_differ_across_seconds t t' :
  valid_datetime t → valid_datetime t' →
  backup_path settings t = backup_path settings t' → same_second t t'.
Proof.
  intros Ht Ht' Heq. apply strftime_inj; [done..|].
  unfold backup_path, Path.join in Heq.
  pose proof (simple_name_backup_name t) as (Hs & _).
  pose proof (simple_name_backup_name t') as (Hs' & _).
  rewrite (PathFacts.startswith_sep_no_sep _ Hs),
    (PathFacts.startswith_sep_no_sep _ Hs') in Heq.
  assert (backup_name t = backup_name t') as Hname.
  { destruct (bool_decide _ || Path.endswith_sep _).
    - by apply (inj (String.app _)) in Heq.
    - apply (inj (String.app _)) in Heq. by apply (inj (String.app _)) in Heq. }
  unfold backup_name in Hname. apply (inj (String.app _)) in Hname.
  apply FormatFacts.append_inj_length in Hname as [? _]; [done|].
  apply (f_equal String.length) in Hname.
  rewrite !FormatFacts.length_append in Hname. simpl in Hname. lia.
Qed.

End Naming.

Lemma float_of_int_exact n : (n < 2 ^ 53)%N → float_of_int n = n.
Proof.
  intros Hn. unfold float_of_int, round_shift.
  assert (N.size n - 53 = 0)%N as ->; [|by rewrite N.shiftl_0_r].
  apply N.sub_0_le. destruct (N.le_gt_cases (N.size n) 53) as [|Hbig]; [done|].
  pose proof (N.size_le n) as Hle.
  assert (2 ^ 54 ≤ 2 ^ N.size n)%N by (apply N.pow_le_mono_r; lia).
  rewrite N.succ_double_spec in Hle. lia.
Qed.

(** X12. For a file of less than 2^53 bytes, the size [check_database]
    prints is the size in units of 2^20 bytes rounded to the nearest
    hundredth: the number [h] of hundredths printed is within half a
    hundredth of the size.  (From 2^53 bytes on the quotient is a float
    that need not be the exact one.) *)
Theorem format_megabytes_rounds (size : nat) :
  (N.of_nat size < 2 ^ 53)%N →
  ∃ h : N,
    format_megabytes size =
      Str.of_N (h / 100) +:+ "." +:+ zfill 2 (N.to_nat (h mod 100)) ∧
    (h * 2 ^ 20 ≤ N.of_nat size * 100 + 2 ^ 19)%N ∧
    (N.of_nat size * 100 ≤ h * 2 ^ 20 + 2 ^ 19)%N.
Proof.
  intros Hsize. unfold format_megabytes, megabytes_2f, format_2f.
  rewrite (float_of_int_exact _ Hsize). set (scaled := (N.of_nat size * 100)%N).
  rewrite N.shiftr_div_pow2, N.land_ones.
  change (N.shiftl 1 (N.pred 20)) with (2 ^ 19)%N.
  pose proof (N.div_mod scaled (2 ^ 20) ltac:(done)) as Hdm.
  pose proof (N.mod_lt scaled (2 ^ 20) ltac:(done)) as Hlt.
  set (q := (scaled / 2 ^ 20)%N) in *. set (r := (scaled mod 2 ^ 20)%N) in *.
  change (2 ^ 20)%N with 1048576%N in *. change (2 ^ 19)%N with 524288%N in *.
  destruct ((524288 <? r)%N || ((r =? 524288)%N && N.odd q)) eqn:Hup.
  - exists (N.succ q). split; [done|].
    apply orb_true_iff in Hup as [Hup%N.ltb_lt|[Hup%N.eqb_eq _]%andb_true_iff]; lia.
  - exists q. split; [done|].
    apply orb_false_iff in Hup as [Hup%N.ltb_ge _]. lia.
Qed.

Section MoreOperations5.
Context {engine : Sqlite} (settings : Settings).

Lemma isdir_located w p :
  isdir w p = true → ∃ k d, locate w p = Some k ∧ fs w !! k = Some (Dir d).
Proof.
  unfold isdir, stat. destruct (locate w p) as [k|]; [|done]. simpl.
  destruct (fs w !! k) as [[|d]|] eqn:Hk; try done. intros _. by exists k, d.
Qed.

Lemma isdir_exists w p : isdir w p = true → exists_ w p = true.
Proof.
  intros (k & d & Hk & Hf)%isdir_located. apply exists_stat.
  unfold stat. rewrite Hk. simpl. by rewrite Hf.
Qed.

(** X14. A directory named [meetings.db] passes the existence test but
    is no database: [check_database] and [clean_orphaned_files] print
    that the database file cannot be opened and return failure, and
    [backup_database] returns failure as well. *)
Theorem database_path_is_a_directory w :
  isdir w (db_path settings) = true →
  check_database settings w =
    Returns false (reported OpCheck [checking_error unable_to_open] w) ∧
  clean_orphaned_files settings w =
    Returns false (reported OpClean [cleaning_error unable_to_open] w) ∧
  result (backup_database settings w) = Some false.
Proof.
  intros Hdir. pose proof (isdir_exists _ _ Hdir) as Hdb.
  destruct (isdir_located _ _ Hdir) as (k & d & Hk & Hf). split_and!.
  - unfold check_database. unfold bind at 1, enter. unfold bind at 1, os_path_exists.
    change (exists_ (set_calls _ w) ?p) with (exists_ w p). rewrite Hdb. cbn [negb].
    unfold try_except. unfold bind at 1, sqlite3_connect.
    change (locate (set_calls ?c w) ?p) with (locate w p). rewrite Hk.
    cbn [fs set_calls]. by rewrite Hf.
  - apply (clean_orphaned_files_scan_raises settings w unable_to_open w Hdb).
    unfold find_orphans, bind at 1, sqlite3_connect. by rewrite Hk, Hf.
  - rewrite (backup_database_run settings w Hdb). cbv zeta.
    destruct (os_makedirs _ _) as [u w1|e w1] eqn:Hmk; [|done].
    apply os_makedirs_adds_directories in Hmk as (Hcwd & _ & Hsub & _).
    destruct (shutil_copy2 _ _ w1) as [dst w2|e w2] eqn:Hcp; [|done].
    exfalso. unfold shutil_copy2, bind at 1, os_path_isdir in Hcp.
    unfold bind at 1 in Hcp.
    destruct (shutil_copyfile _ _ w1) as [v w3|] eqn:Hcf; [|done].
    apply shutil_copyfile_Returns in Hcf as (ks & kt & data & Hks & _ & Hdata & _).
    unfold locate in *. simpl in *. rewrite Hcwd, Hk in Hks. injection Hks as <-.
    pose proof (lookup_weaken _ _ _ _ Hf Hsub). congruence.
Qed.

(** X15. None of the three operations removes a directory or puts
    anything else in its place: a path that denotes a directory before
    an operation denotes one after it, however the operation ends. *)
Theorem operations_keep_directories w p :
  isdir w p = true →
  isdir (final (check_database settings w)) p = true ∧
  isdir (final (backup_database settings w)) p = true ∧
  isdir (final (clean_orphaned_files settings w)) p = true.
Proof.
  intros Hp. split_and!; eapply isdir_kept; try exact Hp.
  - apply check_database_entered.
  - apply backup_database_entered.
  - apply clean_orphaned_files_entered.
Qed.

(** X16. Whatever the scan raises (the file is no database, a table or
    the path column is missing, a directory cannot be listed), the
    handler of [clean_orphaned_files] prints it on one line and the
    operation returns failure: the operator is not asked and the file
    system is as it was. *)
Theorem scan_failure_reported w e w1 :
  exists_ w (db_path settings) = true →
  find_orphans settings w = Raises e w1 →
  let w' := reported OpClean [cleaning_error e] w in
  clean_orphaned_files settings w = Returns false w' ∧
  fs w' = fs w ∧ stdin w' = stdin w.
Proof.
  intros Hdb Hrun. cbv zeta. split; [|done].
  by apply (clean_orphaned_files_scan_raises settings w e w1).
Qed.

End MoreOperations5.

Lemma Raises_final {A} (o : outcome A) e : raised o = Some e → o = Raises e (final o).
Proof. destruct o; simpl; congruence. Qed.

Module MoreRuns.
Import Demo Scenes Cases.

Lemma check_database_healthy_witness :
  let w' := reported OpCheck
              (status_lines settings (length db_bytes)
                 (row_count (Column [SqlText "/srv/uploads/a.wav"; SqlNull;
                                     SqlText "/srv/uploads/b.wav"; SqlText ""]))
                 (row_count (Column [SqlText "/srv/pdfs/a.pdf"])) ++
               ["  - Integrity check: " +:+ "ok"]) (start []) in
  check_database settings (start []) = Returns true w' ∧
  fs w' = fs (start []) ∧ stdin w' = stdin (start []).
Proof.
  apply (check_database_healthy settings (start []) db_bytes db); reflexivity || (vm_compute; reflexivity).
Defined.

Lemma check_database_missing_table_witness :
  check_database (engine := sparse_engine) settings (start []) =
    Returns false
      (reported OpCheck
         [checking_error (OperationalError ("no such table: " +:+ "pdfs"))] (start [])).
Proof.
  apply (check_database_missing_table (engine := sparse_engine) settings (start [])
           db_bytes sparse_db).
  - vm_compute. reflexivity.
  - reflexivity.
  - by right.
Defined.

Lemma check_database_integrity_failure_witness :
  check_database (engine := damaged_engine) settings (start []) =
    Returns false
      (reported OpCheck
         (status_lines settings (length db_bytes) (row_count (Column [SqlNull]))
            (row_count (Column [])) ++
          [checking_error (DatabaseError "database disk image is malformed")]) (start [])).
Proof.
  apply (check_database_integrity_failure (engine := damaged_engine) settings (start [])
           db_bytes damaged_db).
  - vm_compute. reflexivity.
  - reflexivity.
  - reflexivity.
  - reflexivity.
  - reflexivity.
Defined.

Lemma not_a_database_witness :
  let e := DatabaseError "file is not a database" in
  check_database settings garbled = Returns false (reported OpCheck [checking_error e] garbled) ∧
  clean_orphaned_files settings garbled =
    Returns false (reported OpClean [cleaning_error e] garbled).
Proof.
  apply (not_a_database settings garbled audio).
  - vm_compute. reflexivity.
  - reflexivity.
Defined.

Lemma cleanup_at_end_of_input_witness :
  let w'' := reported OpClean [found_uploads (length ["/srv/uploads/c.wav"]);
                               found_pdfs (length ["/srv/pdfs/z.pdf"]);
                               confirm_prompt; cleaning_error EOFError] (start []) in
  clean_orphaned_files settings (start []) = Returns false w'' ∧ fs w'' = fs (start []).
Proof.
  apply (cleanup_at_end_of_input settings (start []) ["/srv/uploads/c.wav"] ["/srv/pdfs/z.pdf"]
           (final (find_orphans settings (start [])))).
  - vm_compute. reflexivity.
  - apply Returns_final. vm_compute. reflexivity.
  - discriminate.
  - reflexivity.
Defined.


Lemma failed_backup_keeps_the_rest_witness :
  let w := capped in
  let w' := final (backup_database settings w) in
  let target := ["srv"; "data"; "backups"; "meetings_20240309_120507.db"] in
  let kept k :=
    (∀ n, fs w !! k = Some n → fs w' !! k = Some n) ∧
    (∀ n, fs w' !! k = Some n → fs w !! k = Some n ∨ (fs w !! k = None ∧ n = Dir true)) in
  (result (backup_database settings w) = Some false ∧
   last (stdout w') =
     Some "Error backing up database: [Errno 27] File too large: '/srv/data/meetings.db' -> '/srv/data/backups/meetings_20240309_120507.db'" ∧
   fs w' !! target = Some (File (take 2 db_bytes))) ∧
  stdin w' = stdin w ∧
  read_bytes w' (db_path settings) = read_bytes w (db_path settings) ∧
  ((∀ k, kept k) ∨
   ∃ kt data n,
     locate w (db_path settings) ≠ Some kt ∧
     read_bytes w (db_path settings) = Some data ∧
     fs w' !! kt = Some (File (take n data)) ∧
     ∀ k, k ≠ kt → kept k).
Proof.
  cbv zeta. split; [split_and!; vm_compute; reflexivity|].
  apply (failed_backup_keeps_the_rest settings capped
           (final (backup_database settings capped))).
  apply Returns_final. vm_compute. reflexivity.
Defined.

Lemma backup_writes_one_file_witness :
  let w := start [] in
  let w' := final (backup_database settings w) in
  ∃ kt data,
    read_bytes w (db_path settings) = Some data ∧
    locate w (db_path settings) ≠ Some kt ∧
    fs w' !! kt = Some (File data) ∧
    ∀ k, k ≠ kt →
      (∀ n, fs w !! k = Some n → fs w' !! k = Some n) ∧
      (∀ n, fs w' !! k = Some n → fs w !! k = Some n ∨ (fs w !! k = None ∧ n = Dir true)).
Proof.
  apply (backup_writes_one_file settings (start []) (final (backup_database settings (start [])))).
  apply Returns_final. vm_compute. reflexivity.
Defined.

(** [--check -h] with [DATA_DIR] not created yet: the help text, and
    [DATA_DIR] is still missing; [--clean --c], where [--c] abbreviates
    both [--check] and [--clean]: refused. *)
Lemma main_exits_before_acting_witness :
  let w := start [] in
  ((Argparse.parse ["--check"; "-h"] = Argparse.HelpExit ∧
    main fresh_settings ["--check"; "-h"] w =
      Raises (SystemExit 0) (set_stdout (stdout w ++ [format_help]) w)) ∨
   (Argparse.parse ["--check"; "-h"] = Argparse.UsageError ∧
    main fresh_settings ["--check"; "-h"] w = Raises (SystemExit 2) w)) ∧
  ((Argparse.parse ["--clean"; "--c"] = Argparse.HelpExit ∧
    main fresh_settings ["--clean"; "--c"] w =
      Raises (SystemExit 0) (set_stdout (stdout w ++ [format_help]) w)) ∨
   (Argparse.parse ["--clean"; "--c"] = Argparse.UsageError ∧
    main fresh_settings ["--clean"; "--c"] w = Raises (SystemExit 2) w)) ∧
  raised (main fresh_settings ["--check"; "-h"] w) = Some (SystemExit 0) ∧
  raised (main fresh_settings ["--clean"; "--c"] w) = Some (SystemExit 2) ∧
  exists_ (final (main fresh_settings ["--check"; "-h"] w)) (DATA_DIR fresh_settings) = false ∧
  calls (final (main fresh_settings ["--check"; "-h"] w)) = [].
Proof.
  cbv zeta. split_and!.
  - apply (main_exits_before_acting fresh_settings ["--check"; "-h"] (start [])).
    intros args. vm_compute. discriminate.
  - apply (main_exits_before_acting fresh_settings ["--clean"; "--c"] (start [])).
    intros args. vm_compute. discriminate.
  - vm_compute. reflexivity.
  - vm_compute. reflexivity.
  - vm_compute. reflexivity.
  - vm_compute. reflexivity.
Defined.

Lemma backup_paths_differ_across_seconds_witness : same_second noon noon_later.
Proof.
  apply (backup_paths_differ_across_seconds settings noon noon_later).
  - repeat split; apply Nat.leb_le; vm_compute; reflexivity.
  - repeat split; apply Nat.leb_le; vm_compute; reflexivity.
  - vm_compute. reflexivity.
Defined.

(** A database of one and a half megabytes and two bytes, and one of
    more than 2^53 bytes, where the quotient is rounded before it is
    formatted. *)
Lemma format_megabytes_rounds_witness :
  (format_megabytes (N.to_nat 1572866) = "1.50" ∧
   megabytes_2f (2 ^ 53 + 2 ^ 17 + 1) = "8589934592.12") ∧
  ∃ h : N,
    format_megabytes (N.to_nat 1572866) =
      Str.of_N (h / 100) +:+ "." +:+ zfill 2 (N.to_nat (h mod 100)) ∧
    (h * 2 ^ 20 ≤ N.of_nat (N.to_nat 1572866) * 100 + 2 ^ 19)%N ∧
    (N.of_nat (N.to_nat 1572866) * 100 ≤ h * 2 ^ 20 + 2 ^ 19)%N.
Proof.
  split; [split; vm_compute; reflexivity|].
  apply (format_megabytes_rounds (N.to_nat 1572866)). vm_compute. reflexivity.
Defined.

Lemma database_path_is_a_directory_witness :
  check_database settings nested =
    Returns false (reported OpCheck [checking_error unable_to_open] nested) ∧
  clean_orphaned_files settings nested =
    Returns false (reported OpClean [cleaning_error unable_to_open] nested) ∧
  result (backup_database settings nested) = Some false.
Proof.
  apply (database_path_is_a_directory settings nested). vm_compute. reflexivity.
Defined.

Lemma operations_keep_directories_witness :
  let w := start ["Y"] in
  isdir (final (check_database settings w)) "/srv/uploads/archive" = true ∧
  isdir (final (backup_database settings w)) "/srv/uploads/archive" = true ∧
  isdir (final (clean_orphaned_files settings w)) "/srv/uploads/archive" = true.
Proof.
  apply (operations_keep_directories settings (start ["Y"]) "/srv/uploads/archive").
  vm_compute. reflexivity.
Defined.

Lemma scan_failure_reported_witness :
  let e := OperationalError "no such column: audio_path" in
  let w' := reported OpClean [cleaning_error e] (start []) in
  clean_orphaned_files (engine := sparse_engine) settings (start []) = Returns false w' ∧
  fs w' = fs (start []) ∧ stdin w' = stdin (start []).
Proof.
  apply (scan_failure_reported (engine := sparse_engine) settings (start [])
           (OperationalError "no such column: audio_path")
           (final (find_orphans (engine := sparse_engine) settings (start [])))).
  - vm_compute. reflexivity.
  - apply Raises_final. vm_compute. reflexivity.
Defined.

End MoreRuns.
